(** * PyMata command handler: the Firmata decoder and its response tables

    A shallow embedding of [pymata_command_handler.py] (class
    [PyMataCommandHandler]) and the properties of its decoder, handlers,
    accessors and reset.

    Python integers are [Z]; a Python list used as an array is a [list]
    indexed the way Python indexes it (negative indices count from the end,
    anything else out of range raises [IndexError]); the dispatch dict is a
    [gmap].  Methods are written in a small monad over the state of the
    Python process that records every state an execution passes through,
    so that both the final state and what another thread can see in between
    are read off the same definition. *)

From Stdlib Require Import ZArith Lia Ascii String.
From stdpp Require Import base option list gmap.

Local Open Scope Z_scope.

(** ** Constants of the class (from Firmata.h) *)

Definition MSG_CMD_MIN : Z := 0x80.
Definition REPORT_ANALOG : Z := 0xC0.
Definition REPORT_DIGITAL : Z := 0xD0.
Definition SET_PIN_MODE : Z := 0xF4.
Definition START_SYSEX : Z := 0xF0.
Definition END_SYSEX : Z := 0xF7.
Definition SYSTEM_RESET : Z := 0xFF.

Definition DIGITAL_MESSAGE : Z := 0x90.
Definition ANALOG_MESSAGE : Z := 0xE0.
Definition REPORT_VERSION : Z := 0xF9.

Definition ENCODER_CONFIG : Z := 0x20.
Definition TONE_PLAY : Z := 0x22.
Definition ENCODER_DATA : Z := 0x21.

Definition SERVO_CONFIG : Z := 0x70.
Definition STRING_DATA : Z := 0x71.
Definition REPORT_FIRMWARE : Z := 0x79.
Definition SAMPLING_INTERVAL : Z := 0x7A.

Definition INPUT : Z := 0x00.
Definition OUTPUT : Z := 0x01.
Definition ANALOG : Z := 0x02.
Definition PWM : Z := 0x03.
Definition SERVO : Z := 0x04.
Definition SHIFT : Z := 0x05.
Definition I2C : Z := 0x06.
Definition ENCODER : Z := 0x07.
Definition TONE : Z := 0x08.

(** Indexes into a response table entry and into the data of a message. *)
Definition RESPONSE_TABLE_MODE : Z := 0.
Definition RESPONSE_TABLE_PIN_DATA_VALUE : Z := 1.
Definition MSB : Z := 2.
Definition LSB : Z := 1.

(** ** Data model *)

(** A response table entry is the two-element list [[mode, value]]. Every
    entry is built by its own list display and stored in one slot only, so
    slots never alias each other and an entry is kept by value. *)
Record entry : Type := Entry { mode : Z; value : Z }.

(** The six handler methods that [run] puts in the dispatch table. *)
Inductive method : Type :=
| m_report_version
| m_report_firmware
| m_analog_message
| m_digital_message
| m_encoder_data
| m_string_data.

(** What [firmata_firmware] holds: two integers and then a string. *)
Inductive pyval : Type :=
| PInt (z : Z)
| PStr (s : string).

(** What the [print] statements of [_string_data] send to the console: a
    string, or a list of one-character strings. *)
Inductive printed : Type :=
| OutStr (s : string)
| OutList (chars : list ascii).

(** The two response tables are list objects bound to attributes of the
    class, filled and emptied in place and never rebound: a reference to
    one of them is just its name. *)
Inductive table_ref : Type := DigitalRef | AnalogRef.

(** The state of the Python process, as far as the class touches it.
    The first five fields are the mutable objects bound in the class body:
    there is one of each, whatever the number of instances.  The others are
    the objects handed to the constructors, by handle: the locks that are
    held, the contents of the deques, the characters written to the
    transports (oldest first), and the console. *)
Record World : Type := mkWorld {
  digital_response_table : list entry;
  analog_response_table : list entry;
  command_dispatch : gmap Z (method * Z);
  firmata_version : list Z;
  firmata_firmware : list pyval;
  held : gset nat;
  deques : gmap nat (list Z);
  wire : list (nat * ascii);
  console : list printed
}.

(** The attributes [__init__] sets on the instance. *)
Record Handler : Type := mkHandler {
  transport : nat;
  command_deque : nat;
  data_lock : nat;
  number_digital_pins : Z;
  number_analog_pins : Z
}.

(** The process right after the class body has run: empty tables, an empty
    dispatch dict, no lock held, nothing queued or written. *)
Definition class_loaded : World :=
  mkWorld [] [] ∅ [] [] ∅ ∅ [] [].

Definition deref (w : World) (r : table_ref) : list entry :=
  match r with
  | DigitalRef => digital_response_table w
  | AnalogRef => analog_response_table w
  end.

Definition set_table (r : table_ref) (t : list entry) (w : World) : World :=
  match r with
  | DigitalRef =>
      mkWorld t (analog_response_table w) (command_dispatch w)
        (firmata_version w) (firmata_firmware w) (held w) (deques w)
        (wire w) (console w)
  | AnalogRef =>
      mkWorld (digital_response_table w) t (command_dispatch w)
        (firmata_version w) (firmata_firmware w) (held w) (deques w)
        (wire w) (console w)
  end.

Definition set_dispatch (d : gmap Z (method * Z)) (w : World) : World :=
  mkWorld (digital_response_table w) (analog_response_table w) d
    (firmata_version w) (firmata_firmware w) (held w) (deques w)
    (wire w) (console w).

Definition set_version (v : list Z) (w : World) : World :=
  mkWorld (digital_response_table w) (analog_response_table w)
    (command_dispatch w) v (firmata_firmware w) (held w) (deques w)
    (wire w) (console w).

Definition set_firmware (f : list pyval) (w : World) : World :=
  mkWorld (digital_response_table w) (analog_response_table w)
    (command_dispatch w) (firmata_version w) f (held w) (deques w)
    (wire w) (console w).

Definition set_held (h : gset nat) (w : World) : World :=
  mkWorld (digital_response_table w) (analog_response_table w)
    (command_dispatch w) (firmata_version w) (firmata_firmware w) h
    (deques w) (wire w) (console w).

Definition set_deques (q : gmap nat (list Z)) (w : World) : World :=
  mkWorld (digital_response_table w) (analog_response_table w)
    (command_dispatch w) (firmata_version w) (firmata_firmware w) (held w)
    q (wire w) (console w).

Definition set_wire (o : list (nat * ascii)) (w : World) : World :=
  mkWorld (digital_response_table w) (analog_response_table w)
    (command_dispatch w) (firmata_version w) (firmata_firmware w) (held w)
    (deques w) o (console w).

Definition set_console (c : list printed) (w : World) : World :=
  mkWorld (digital_response_table w) (analog_response_table w)
    (command_dispatch w) (firmata_version w) (firmata_firmware w) (held w)
    (deques w) (wire w) c.

(** The bytes queued in a deque; a handle with nothing queued is empty. *)
Definition queued (q : nat) (w : World) : list Z :=
  default [] (deques w !! q).

(** ** Python list and character primitives *)

(** The position Python's [l[i]] reads in a list of length [len]. *)
Definition index_of (len : nat) (i : Z) : option nat :=
  if 0 <=? i then
    if i <? Z.of_nat len then Some (Z.to_nat i) else None
  else
    if - Z.of_nat len <=? i then Some (Z.to_nat (Z.of_nat len + i)) else None.

Definition getitem {A} (l : list A) (i : Z) : option A :=
  n ← index_of (length l) i; l !! n.

(** [l[::2]] *)
Fixpoint every_other {A} (l : list A) : list A :=
  match l with
  | [] => []
  | x :: r => x :: match r with
                   | [] => []
                   | _ :: r' => every_other r'
                   end
  end.

(** The exceptions the class can end with. *)
Inductive exn : Type := IndexError | TypeError | ValueError | OverflowError.

(** The exception [chr(i)] raises for an integer outside 0..255 (CPython
    2.7): the argument is first converted to a C long, taken 64 bits wide
    as on Linux, and an integer that does not fit raises [OverflowError];
    a long outside 0..255 is then refused with [ValueError]. *)
Definition chr_error (i : Z) : exn :=
  if (- 2 ^ 63 <=? i) && (i <? 2 ^ 63) then ValueError else OverflowError.

(** [chr(i)]: a one-character string for 0..255, an exception elsewhere. *)
Definition chr (i : Z) : exn + ascii :=
  if (0 <=? i) && (i <? 256) then inr (ascii_of_N (Z.to_N i))
  else inl (chr_error i).

(** [range(a, b)] *)
Definition range (a b : Z) : list Z := seqZ a (b - a).

(** ** The execution monad *)

(** How a method stops short of returning: an exception that nothing
    catches; a wait that never ends (a busy wait on a deque that stays
    empty, a lock that stays taken); or the loop bound of the decoder's
    model running out (shown below never to happen for [run]). *)
Inductive abort : Type :=
| Raise (e : exn)
| Block
| Fuel.

(** [trace] lists the state after every atomic action, in order; [final]
    is the state the execution stops in. *)
Record Run (A : Type) : Type := mkRun {
  trace : list World;
  final : World;
  outcome : abort + A
}.
Arguments mkRun {A} _ _ _.
Arguments trace {A} _.
Arguments final {A} _.
Arguments outcome {A} _.

Definition M (A : Type) : Type := World -> Run A.

Definition ret {A} (a : A) : M A := fun w => mkRun [] w (inr a).

Definition bind {A B} (m : M A) (k : A -> M B) : M B := fun w =>
  let r := m w in
  match outcome r with
  | inl e => mkRun (trace r) (final r) (inl e)
  | inr a =>
      let r' := k a (final r) in
      mkRun (trace r ++ trace r') (final r') (outcome r')
  end.

Definition stop {A} (e : abort) : M A := fun w => mkRun [] w (inl e).
Definition raise {A} (e : exn) : M A := stop (Raise e).

(** One atomic change of the state. *)
Definition act (f : World -> World) : M unit := fun w =>
  mkRun [f w] (f w) (inr tt).

Definition ask : M World := fun w => mkRun [] w (inr w).

Declare Scope py_scope.
Delimit Scope py_scope with py.
Notation "x <- m ;; k" := (bind m (fun x => k))
  (at level 100, m at next level, right associativity) : py_scope.
Notation "m ;; k" := (bind m (fun _ => k))
  (at level 100, right associativity) : py_scope.
Local Open Scope py_scope.

(** [l[i]] as a statement. *)
Definition item {A} (l : list A) (i : Z) : M A :=
  match getitem l i with
  | Some x => ret x
  | None => raise IndexError
  end.

Definition chr_ (i : Z) : M ascii :=
  match chr i with
  | inr c => ret c
  | inl e => raise e
  end.

(** [for i in l: out.append(chr(i))], [out] being a local list. *)
Fixpoint chr_each (l : list Z) : M (list ascii) :=
  match l with
  | [] => ret []
  | i :: r => c <- chr_ i ;; cs <- chr_each r ;; ret (c :: cs)
  end.

Fixpoint repeatM (n : nat) (m : M unit) : M unit :=
  match n with
  | O => ret tt
  | S n' => m ;; repeatM n' m
  end.

(** [lock.acquire(True)] and [lock.release()]. *)
Definition acquire (l : nat) : M unit :=
  w <- ask ;;
  if bool_decide (l ∈ held w) then stop Block
  else act (fun w => set_held (held w ∪ {[l]}) w).

Definition release (l : nat) : M unit :=
  act (fun w => set_held (held w ∖ {[l]}) w).

(** [transport.write(c)] *)
Definition write (t : nat) (c : ascii) : M unit :=
  act (fun w => set_wire (wire w ++ [(t, c)]) w).

(** [table.append([INPUT, 0])] and [table.pop()] on a response table. *)
Definition append_entry (r : table_ref) (e : entry) : M unit :=
  act (fun w => set_table r (deref w r ++ [e]) w).

Definition pop_entry (r : table_ref) : M unit :=
  w <- ask ;;
  match deref w r with
  | [] => raise IndexError
  | _ :: _ => act (fun w => set_table r (removelast (deref w r)) w)
  end.

(** [table[i][RESPONSE_TABLE_PIN_DATA_VALUE] = v] *)
Definition store_value (r : table_ref) (i : Z) (v : Z) : M unit :=
  w <- ask ;;
  match index_of (length (deref w r)) i with
  | None => raise IndexError
  | Some n =>
      act (fun w =>
             set_table r (alter (fun e => Entry (mode e) v) n (deref w r)) w)
  end.

(** [for x in l: body(x)] *)
Fixpoint for_each {A} (l : list A) (body : A -> M unit) : M unit :=
  match l with
  | [] => ret tt
  | x :: r => body x ;; for_each r body
  end.

(** ** The class *)

(** The constructor: appends one entry per pin to the tables of the class,
    then sets the attributes of the instance. *)
Definition __init__ (transport command_deque data_lock : nat)
    (number_digital_pins number_analog_pins : Z) : M Handler :=
  for_each (range 0 number_digital_pins)
    (fun _ => append_entry DigitalRef (Entry INPUT 0)) ;;
  for_each (range 0 number_analog_pins)
    (fun _ => append_entry AnalogRef (Entry INPUT 0)) ;;
  ret (mkHandler transport command_deque data_lock
         number_digital_pins number_analog_pins).

(** *** Handlers of messages received from Firmata *)

Definition report_version (self : Handler) (data : list Z) : M unit :=
  major <- item data 0 ;;
  act (fun w => set_version (firmata_version w ++ [major]) w) ;;
  minor <- item data 1 ;;
  act (fun w => set_version (firmata_version w ++ [minor]) w).

(** The name of the firmware: the characters of [name_data[::2]]. *)
Definition report_firmware (self : Handler) (data : list Z) : M unit :=
  major <- item data 0 ;;
  act (fun w => set_firmware (firmata_firmware w ++ [PInt major]) w) ;;
  minor <- item data 1 ;;
  act (fun w => set_firmware (firmata_firmware w ++ [PInt minor]) w) ;;
  let name_data := drop 2 data in
  file_name <- chr_each (every_other name_data) ;;
  act (fun w =>
         set_firmware
           (firmata_firmware w ++ [PStr (string_of_list_ascii file_name)]) w).

Definition analog_message (self : Handler) (data : list Z) : M unit :=
  acquire (data_lock self) ;;
  msb <- item data MSB ;;
  lsb <- item data LSB ;;
  pin <- item data RESPONSE_TABLE_MODE ;;
  store_value AnalogRef pin (Z.shiftl msb 7 + lsb) ;;
  release (data_lock self).

(** The body of the loop over the pins of the port: the lock is taken and
    given back around each single store. *)
Fixpoint digital_message_loop (self : Handler) (pins : list Z)
    (port_data : Z) : M unit :=
  match pins with
  | [] => ret tt
  | pin :: pins' =>
      acquire (data_lock self) ;;
      store_value DigitalRef pin (Z.land port_data 0x01) ;;
      release (data_lock self) ;;
      digital_message_loop self pins' (Z.shiftr port_data 1)
  end.

Definition digital_message (self : Handler) (data : list Z) : M unit :=
  port <- item data 0 ;;
  msb <- item data MSB ;;
  lsb <- item data LSB ;;
  let port_data := Z.shiftl msb 7 + lsb in
  let pin := port * 8 in
  digital_message_loop self (range pin (pin + 8)) port_data.

Definition encoder_data (self : Handler) (data : list Z) : M unit :=
  msb <- item data MSB ;;
  lsb <- item data LSB ;;
  let val := Z.shiftl msb 7 + lsb in
  let val := if 8192 <? val then val - 16384 else val in
  acquire (data_lock self) ;;
  pin <- item data RESPONSE_TABLE_MODE ;;
  store_value DigitalRef pin val ;;
  release (data_lock self).

(** *** Accessors: the value returned is the table object itself. *)

Definition get_analog_response_table (self : Handler) : M table_ref :=
  acquire (data_lock self) ;;
  let data := AnalogRef in
  release (data_lock self) ;;
  ret data.

Definition get_digital_response_table (self : Handler) : M table_ref :=
  acquire (data_lock self) ;;
  let data := DigitalRef in
  release (data_lock self) ;;
  ret data.

(** *** Messages sent to Firmata *)

Definition send_sysex (self : Handler) (sysex_command : Z)
    (sysex_data : list Z) : M unit :=
  c0 <- chr_ START_SYSEX ;;
  c1 <- chr_ sysex_command ;;
  cs <- chr_each sysex_data ;;
  c2 <- chr_ END_SYSEX ;;
  for_each (c0 :: c1 :: cs ++ [c2]) (write (transport self)).

Definition send_command (self : Handler) (command : list Z) : M unit :=
  send_message <- chr_each command ;;
  for_each send_message (write (transport self)).

Definition system_reset (self : Handler) : M unit :=
  data <- chr_ SYSTEM_RESET ;;
  write (transport self) data ;;
  acquire (data_lock self) ;;
  w <- ask ;;
  for_each (range 0 (Z.of_nat (length (digital_response_table w))))
    (fun _ => pop_entry DigitalRef) ;;
  w <- ask ;;
  for_each (range 0 (Z.of_nat (length (analog_response_table w))))
    (fun _ => pop_entry AnalogRef) ;;
  for_each (range 0 (number_digital_pins self))
    (fun _ => append_entry DigitalRef (Entry INPUT 0)) ;;
  for_each (range 0 (number_analog_pins self))
    (fun _ => append_entry AnalogRef (Entry INPUT 0)) ;;
  release (data_lock self).

Definition _string_data (self : Handler) (data : list Z) : M unit :=
  act (fun w => set_console (console w ++ [OutStr "_string_data:"]) w) ;;
  string_to_print <- chr_each (every_other data) ;;
  act (fun w => set_console (console w ++ [OutList string_to_print]) w).

(** *** The receive loop *)

(** Calling the bound method found in the dispatch table. *)
Definition invoke (self : Handler) (m : method) (data : list Z) : M unit :=
  match m with
  | m_report_version => report_version self data
  | m_report_firmware => report_firmware self data
  | m_analog_message => analog_message self data
  | m_digital_message => digital_message self data
  | m_encoder_data => encoder_data self data
  | m_string_data => _string_data self data
  end.

(** [command_dispatch.update({key: [m, n]})] *)
Definition dispatch_update (key : Z) (m : method) (n : Z) : M unit :=
  act (fun w => set_dispatch (<[key := (m, n)]> (command_dispatch w)) w).

(** [command_dispatch.get(key)]: the entry, or [None]. *)
Definition dispatch_get (key : Z) : M (option (method * Z)) :=
  w <- ask ;; ret (command_dispatch w !! key).

(** [dispatch_entry[0]] and [dispatch_entry[1]]: [None] has no items. *)
Definition entry_method (dispatch_entry : option (method * Z)) : M method :=
  match dispatch_entry with
  | Some (m, _) => ret m
  | None => raise TypeError
  end.

Definition entry_num_args (dispatch_entry : option (method * Z)) : M Z :=
  match dispatch_entry with
  | Some (_, n) => ret n
  | None => raise TypeError
  end.

(** [while len(deque) == 0: pass] followed by [deque.popleft()]: with
    nothing queued and nothing arriving the wait never ends. *)
Definition popleft (q : nat) : M Z :=
  w <- ask ;;
  match queued q w with
  | [] => stop Block
  | data :: rest =>
      act (fun w => set_deques (<[q := rest]> (deques w)) w) ;; ret data
  end.

(** The inner loop of a sysex message: collect bytes up to [END_SYSEX],
    then call the method.  Every turn takes a byte off the deque, so a
    bound above the number of queued bytes is never used up. *)
Fixpoint sysex_loop (fuel : nat) (self : Handler) (m : method)
    (command_data : list Z) : M unit :=
  match fuel with
  | O => stop Fuel
  | S fuel' =>
      data <- popleft (command_deque self) ;;
      if data =? END_SYSEX then invoke self m command_data
      else sysex_loop fuel' self m (command_data ++ [data])
  end.

(** [for i in range(num_args)]: wait for a byte and append it. *)
Fixpoint take_args (n : nat) (self : Handler) (command_data : list Z)
    : M (list Z) :=
  match n with
  | O => ret command_data
  | S n' =>
      data <- popleft (command_deque self) ;;
      take_args n' self (command_data ++ [data])
  end.

(** The command byte of a non-sysex message, as looked up in the dispatch
    table, with the start of its [command_data]: the port of a digital
    message and the pin of an analog message are taken out of the byte. *)
Definition command_key (data : Z) : Z * list Z :=
  if (0x90 <=? data) && (data <=? 0x9f) then
    let port := Z.land data 0xf in (0x90, [port])
  else if (0xe0 <=? data) && (data <=? 0xe9) then
    let pin := Z.land data 0xf in (0xe0, [pin])
  else (data, []).

(** The [while 1] loop.  A turn that finds the deque empty changes nothing
    and comes round again: with no byte arriving it polls for ever. *)
Fixpoint run_loop (fuel : nat) (self : Handler) : M unit :=
  match fuel with
  | O => stop Fuel
  | S fuel' =>
      w <- ask ;;
      if bool_decide (queued (command_deque self) w = []) then stop Block
      else
        data <- popleft (command_deque self) ;;
        if data =? START_SYSEX then
          sysex_command <- popleft (command_deque self) ;;
          dispatch_entry <- dispatch_get sysex_command ;;
          m <- entry_method dispatch_entry ;;
          sysex_loop fuel' self m [] ;;
          run_loop fuel' self
        else if (0x80 <=? data) && (data <=? 0xff) then
          let '(data, command_data) := command_key data in
          dispatch_entry <- dispatch_get data ;;
          m <- entry_method dispatch_entry ;;
          num_args <- entry_num_args dispatch_entry ;;
          command_data <-
            take_args (length (range 0 num_args)) self command_data ;;
          invoke self m command_data ;;
          run_loop fuel' self
        else run_loop fuel' self
  end.

Definition run (self : Handler) : M unit :=
  dispatch_update REPORT_VERSION m_report_version 2 ;;
  dispatch_update REPORT_FIRMWARE m_report_firmware 1 ;;
  dispatch_update ANALOG_MESSAGE m_analog_message 2 ;;
  dispatch_update DIGITAL_MESSAGE m_digital_message 2 ;;
  dispatch_update ENCODER_DATA m_encoder_data 3 ;;
  dispatch_update STRING_DATA m_string_data 2 ;;
  w <- ask ;;
  run_loop (S (length (queued (command_deque self) w))) self.

(** ** Definitions used in the statements and proofs *)

(** [after w1 r]: the run [r] preceded by a step to [w1]. *)
Definition after {A} (w1 : World) (r : Run A) : Run A :=
  mkRun (w1 :: trace r) (final r) (outcome r).

(** The state once [table[n][RESPONSE_TABLE_PIN_DATA_VALUE] = v] is done. *)
Definition stored (r : table_ref) (n : nat) (v : Z) (w : World) : World :=
  set_table r (alter (fun e => Entry (mode e) v) n (deref w r)) w.

(** The value [encoder_data] stores for the raw 14-bit reading [raw]. *)
Definition encoder_value (raw : Z) : Z :=
  if 8192 <? raw then raw - 16384 else raw.

(** The digital table once the first [k] pins from [start] on have been
    given the low [k] bits of [port_data]. *)
Definition port_written (start k port_data : Z) (t : list entry)
    : list entry :=
  imap (fun m e =>
          let j := Z.of_nat m - start in
          if (0 <=? j) && (j <? k)
          then Entry (mode e) (Z.land (Z.shiftr port_data j) 1)
          else e) t.

(** The state [system_reset] leaves behind: the character 0xFF written,
    both tables holding [[INPUT, 0]] for each pin of the instance. *)
Definition reset_world (self : Handler) (w : World) : World :=
  set_table AnalogRef
    (replicate (Z.to_nat (number_analog_pins self)) (Entry INPUT 0))
    (set_table DigitalRef
       (replicate (Z.to_nat (number_digital_pins self)) (Entry INPUT 0))
       (set_wire (wire w ++ [(transport self, ascii_of_N 255)]) w)).

(** What the transport puts on the deque: [ord] of a character read. *)
Definition is_byte (i : Z) : Prop := 0 <= i < 256.

(** The state once a byte is taken off deque [q], [rest] being left. *)
Definition popped (q : nat) (rest : list Z) (w : World) : World :=
  set_deques (<[q := rest]> (deques w)) w.

(** ** A board to run on *)

(** An Arduino Uno as the first and only instance of the class: 20
    digital and 6 analog pins, with transport, deque and lock number 0. *)
Definition uno_handler : Handler := mkHandler 0 0 0 20 6.
Definition uno : World := final (__init__ 0 0 0 20 6 class_loaded).

(** The transport thread putting bytes on a deque. *)
Definition feed (q : nat) (bytes : list Z) (w : World) : World :=
  set_deques (<[q := queued q w ++ bytes]> (deques w)) w.

(** What a thread that takes lock [l] can find while [m] runs from [w]:
    threads are switched between atomic actions only, and the lock can be
    taken only at a moment nobody holds it. *)
Definition observable {A} (l : nat) (m : M A) (w : World) : list World :=
  filter (fun s => l ∉ held s) (w :: trace (m w)).

(** A method that neither touches the deques nor runs short of fuel. *)
Definition tame {A} (m : M A) : Prop :=
  forall w, deques (final (m w)) = deques w /\ outcome (m w) <> inl Fuel.

(** A method that, started with at most [n] bytes queued on [q], does not
    run short of fuel and leaves at most [n] bytes queued. *)
Definition bounded {A} (q : nat) (n : nat) (m : M A) : Prop :=
  forall w,
    (length (queued q w) <= n)%nat ->
    outcome (m w) <> inl Fuel /\ (length (queued q (final (m w))) <= n)%nat.

(** Two runs that end alike: the same outcome in the same state. *)
Definition same_end {A} (r r' : Run A) : Prop :=
  outcome r = outcome r' /\ final r = final r'.

(** A method that leaves the part [f] of the state as it found it, however
    it ends. *)
Definition keeps {A X} (f : World -> X) (m : M A) : Prop :=
  forall w, f (final (m w)) = f w.

(** A method that never returns: it ends by an exception or waits. *)
Definition never_returns {A} (m : M A) : Prop :=
  forall w a, outcome (m w) <> inr a.

(** The dispatch dict once the six updates at the start of [run] are done
    on the dict [d], and the state [run] enters its loop in. *)
Definition dispatch_table (d : gmap Z (method * Z)) : gmap Z (method * Z) :=
  <[STRING_DATA := (m_string_data, 2)]>
    (<[ENCODER_DATA := (m_encoder_data, 3)]>
       (<[DIGITAL_MESSAGE := (m_digital_message, 2)]>
          (<[ANALOG_MESSAGE := (m_analog_message, 2)]>
             (<[REPORT_FIRMWARE := (m_report_firmware, 1)]>
                (<[REPORT_VERSION := (m_report_version, 2)]> d))))).

Definition started (w : World) : World :=
  set_dispatch (dispatch_table (command_dispatch w)) w.

(** The characters of a list of bytes, and what writing them to transport
    [t] adds to the output. *)
Definition chars_of (l : list Z) : list ascii :=
  map (fun i => ascii_of_N (Z.to_N i)) l.

Definition sent_on (t : nat) (l : list Z) : list (nat * ascii) :=
  map (fun c => (t, c)) (chars_of l).

(** * Properties *)

(** ** Running the monad *)

Lemma bind_ret {A B} (a : A) (k : A -> M B) w : bind (ret a) k w = k a w.
Proof. unfold bind, ret; cbn. destruct (k a w); reflexivity. Qed.

Lemma bind_ask {B} (k : World -> M B) w : bind ask k w = k w w.
Proof. unfold bind, ask; cbn. destruct (k w w); reflexivity. Qed.

Lemma bind_stop {A B} (e : abort) (k : A -> M B) w :
  bind (stop e) k w = mkRun [] w (inl e).
Proof. reflexivity. Qed.

Lemma bind_raise {A B} (e : exn) (k : A -> M B) w :
  bind (raise e) k w = mkRun [] w (inl (Raise e)).
Proof. reflexivity. Qed.

Lemma bind_act {B} (f : World -> World) (k : unit -> M B) w :
  bind (act f) k w = after (f w) (k tt (f w)).
Proof. reflexivity. Qed.

Lemma bind_bind {A B C} (m : M A) (k : A -> M B) (k' : B -> M C) w :
  bind (bind m k) k' w = bind m (fun a => bind (k a) k') w.
Proof.
  unfold bind. destruct (m w) as [t w1 [e | a]]; cbn; [reflexivity |].
  destruct (k a w1) as [t' w2 [e | b]]; cbn; [reflexivity |].
  rewrite app_assoc. reflexivity.
Qed.

Lemma item_0 {A} (a : A) l : item (a :: l) 0 = ret a.
Proof. reflexivity. Qed.

Lemma item_1 {A} (a b : A) l : item (a :: b :: l) 1 = ret b.
Proof.
  unfold item, getitem, index_of. cbn [length Z.leb Z.compare].
  rewrite (proj2 (Z.ltb_lt 1 _)) by lia. reflexivity.
Qed.

Lemma item_2 {A} (a b c : A) l : item (a :: b :: c :: l) 2 = ret c.
Proof.
  unfold item, getitem, index_of. cbn [length Z.leb Z.compare].
  rewrite (proj2 (Z.ltb_lt 2 _)) by lia. reflexivity.
Qed.

Lemma index_of_in_range len i :
  0 <= i < Z.of_nat len -> index_of len i = Some (Z.to_nat i).
Proof.
  intros [H0 H1]. unfold index_of.
  rewrite (proj2 (Z.leb_le 0 i)) by lia.
  rewrite (proj2 (Z.ltb_lt i _)) by lia. reflexivity.
Qed.

Lemma index_of_too_big len i :
  Z.of_nat len <= i -> index_of len i = None.
Proof.
  intros H. unfold index_of.
  rewrite (proj2 (Z.leb_le 0 i)) by lia.
  rewrite (proj2 (Z.ltb_ge i _)) by lia. reflexivity.
Qed.

Lemma getitem_in_range {A} (l : list A) i :
  0 <= i -> getitem l i = l !! Z.to_nat i.
Proof.
  intros H0. unfold getitem.
  destruct (Z.lt_ge_cases i (Z.of_nat (length l))) as [Hlt | Hge].
  - rewrite index_of_in_range by lia. reflexivity.
  - rewrite index_of_too_big by lia. cbn.
    symmetry. apply lookup_ge_None. lia.
Qed.

Lemma bind_acquire {B} l (k : unit -> M B) w :
  l ∉ held w ->
  bind (acquire l) k w =
  after (set_held (held w ∪ {[l]}) w) (k tt (set_held (held w ∪ {[l]}) w)).
Proof.
  intros Hfree. unfold acquire. rewrite bind_bind, bind_ask.
  rewrite bool_decide_eq_false_2 by done. reflexivity.
Qed.

Lemma bind_release {B} l (k : unit -> M B) w :
  bind (release l) k w =
  after (set_held (held w ∖ {[l]}) w) (k tt (set_held (held w ∖ {[l]}) w)).
Proof. reflexivity. Qed.

Lemma bind_store_value {B} r i v n (k : unit -> M B) w :
  index_of (length (deref w r)) i = Some n ->
  bind (store_value r i v) k w = after (stored r n v w) (k tt (stored r n v w)).
Proof.
  intros Hi. unfold store_value. rewrite bind_bind, bind_ask, Hi.
  reflexivity.
Qed.

Lemma bind_store_value_out {B} r i v (k : unit -> M B) w :
  index_of (length (deref w r)) i = None ->
  bind (store_value r i v) k w = mkRun [] w (inl (Raise IndexError)).
Proof.
  intros Hi. unfold store_value. rewrite bind_bind, bind_ask, Hi.
  reflexivity.
Qed.

Lemma lock_round_trip (l : nat) (h : gset nat) :
  l ∉ h -> (h ∪ {[l]}) ∖ {[l]} = h.
Proof.
  intros Hl. apply set_eq. intros x.
  rewrite elem_of_difference, elem_of_union, elem_of_singleton.
  split; [tauto |]. intros Hx. split; [tauto |]. intros ->. contradiction.
Qed.

Lemma deref_set_held h w r : deref (set_held h w) r = deref w r.
Proof. destruct r; reflexivity. Qed.

Lemma deref_stored r n v w :
  deref (stored r n v w) r = alter (fun e => Entry (mode e) v) n (deref w r).
Proof. destruct r; reflexivity. Qed.

Lemma held_stored r n v w : held (stored r n v w) = held w.
Proof. destruct r; reflexivity. Qed.

(** Taking the lock, storing one value and giving the lock back leaves
    the state with just that value changed. *)
Lemma locked_store l r n v w :
  l ∉ held w ->
  set_held (held (stored r n v (set_held (held w ∪ {[l]}) w)) ∖ {[l]})
    (stored r n v (set_held (held w ∪ {[l]}) w)) = stored r n v w.
Proof.
  intros Hfree. rewrite held_stored. cbn.
  destruct w, r; cbn in *; rewrite lock_round_trip by done; reflexivity.
Qed.

(** ** The handlers, run *)

Lemma analog_message_run self w pin lsb msb rest n :
  data_lock self ∉ held w ->
  index_of (length (analog_response_table w)) pin = Some n ->
  let w1 := set_held (held w ∪ {[data_lock self]}) w in
  let w2 := stored AnalogRef n (Z.shiftl msb 7 + lsb) w1 in
  analog_message self (pin :: lsb :: msb :: rest) w =
  mkRun [w1; w2; stored AnalogRef n (Z.shiftl msb 7 + lsb) w]
    (stored AnalogRef n (Z.shiftl msb 7 + lsb) w) (inr tt).
Proof.
  intros Hfree Hn w1 w2. unfold analog_message.
  rewrite bind_acquire by done.
  unfold MSB, LSB, RESPONSE_TABLE_MODE.
  rewrite item_2, bind_ret, item_1, bind_ret, item_0, bind_ret.
  rewrite (bind_store_value _ _ _ n) by exact Hn.
  unfold release, act, after; cbn [trace final outcome].
  rewrite locked_store by done. reflexivity.
Qed.

Lemma analog_message_out_of_range self w pin lsb msb rest :
  data_lock self ∉ held w ->
  index_of (length (analog_response_table w)) pin = None ->
  let w1 := set_held (held w ∪ {[data_lock self]}) w in
  analog_message self (pin :: lsb :: msb :: rest) w =
  mkRun [w1] w1 (inl (Raise IndexError)).
Proof.
  intros Hfree Hn w1. unfold analog_message.
  rewrite bind_acquire by done.
  unfold MSB, LSB, RESPONSE_TABLE_MODE.
  rewrite item_2, bind_ret, item_1, bind_ret, item_0, bind_ret.
  rewrite bind_store_value_out by exact Hn.
  reflexivity.
Qed.

Lemma encoder_data_run self w pin lsb msb rest n :
  data_lock self ∉ held w ->
  index_of (length (digital_response_table w)) pin = Some n ->
  let val := encoder_value (Z.shiftl msb 7 + lsb) in
  let w1 := set_held (held w ∪ {[data_lock self]}) w in
  encoder_data self (pin :: lsb :: msb :: rest) w =
  mkRun [w1; stored DigitalRef n val w1; stored DigitalRef n val w]
    (stored DigitalRef n val w) (inr tt).
Proof.
  intros Hfree Hn val w1. unfold encoder_data.
  unfold MSB, LSB, RESPONSE_TABLE_MODE.
  rewrite item_2, bind_ret, item_1, bind_ret.
  rewrite bind_acquire by done.
  rewrite item_0, bind_ret.
  rewrite (bind_store_value _ _ _ n) by exact Hn.
  unfold release, act, after; cbn [trace final outcome].
  rewrite locked_store by done. reflexivity.
Qed.

Lemma encoder_data_out_of_range self w pin lsb msb rest :
  data_lock self ∉ held w ->
  index_of (length (digital_response_table w)) pin = None ->
  let w1 := set_held (held w ∪ {[data_lock self]}) w in
  encoder_data self (pin :: lsb :: msb :: rest) w =
  mkRun [w1] w1 (inl (Raise IndexError)).
Proof.
  intros Hfree Hn w1. unfold encoder_data.
  unfold MSB, LSB, RESPONSE_TABLE_MODE.
  rewrite item_2, bind_ret, item_1, bind_ret.
  rewrite bind_acquire by done.
  rewrite item_0, bind_ret.
  rewrite bind_store_value_out by exact Hn.
  reflexivity.
Qed.

(** Splitting a 14-bit value into two 7-bit bytes and back. *)
Lemma fourteen_bits v :
  0 <= v <= 16383 ->
  0 <= Z.land v 0x7f < 128 /\ 0 <= Z.shiftr v 7 < 128 /\
  Z.shiftl (Z.shiftr v 7) 7 + Z.land v 0x7f = v.
Proof.
  intros Hv.
  change 0x7f with (Z.ones 7). rewrite Z.land_ones by lia.
  rewrite Z.shiftr_div_pow2, Z.shiftl_mul_pow2 by lia.
  change (2 ^ 7) with 128.
  pose proof (Z.mod_pos_bound v 128 ltac:(lia)).
  pose proof (Z.div_mod v 128 ltac:(lia)).
  assert (0 <= v / 128 < 128).
  { split; [apply Z.div_pos; lia | apply Z.div_lt_upper_bound; lia]. }
  lia.
Qed.

(** ** The loop of [digital_message] *)

Lemma port_written_length start k pd t :
  length (port_written start k pd t) = length t.
Proof. apply length_imap. Qed.

Lemma port_written_lookup start k pd t m :
  port_written start k pd t !! m =
  (fun e =>
     let j := Z.of_nat m - start in
     if (0 <=? j) && (j <? k)
     then Entry (mode e) (Z.land (Z.shiftr pd j) 1)
     else e) <$> t !! m.
Proof. apply list_lookup_imap. Qed.

Lemma port_written_nothing start k pd t :
  k <= 0 -> port_written start k pd t = t.
Proof.
  intros Hk. apply list_eq. intros m. rewrite port_written_lookup.
  destruct (t !! m) as [e |]; cbn; [| reflexivity].
  destruct (Z.leb_spec 0 (Z.of_nat m - start)); cbn; [| reflexivity].
  rewrite (proj2 (Z.ltb_ge _ _)) by lia. reflexivity.
Qed.

Lemma port_written_step start k pd t :
  0 <= start -> 0 <= k ->
  port_written (start + 1) k (Z.shiftr pd 1)
    (alter (fun e => Entry (mode e) (Z.land pd 1)) (Z.to_nat start) t) =
  port_written start (k + 1) pd t.
Proof.
  intros Hstart Hk. apply list_eq. intros m.
  rewrite !port_written_lookup.
  destruct (decide (m = Z.to_nat start)) as [-> | Hne].
  - rewrite list_lookup_alter_eq.
    destruct (t !! Z.to_nat start) as [e |]; cbn; [| reflexivity].
    replace (Z.of_nat (Z.to_nat start) - (start + 1)) with (-1) by lia.
    replace (Z.of_nat (Z.to_nat start) - start) with 0 by lia.
    cbn [Z.leb Z.compare andb].
    rewrite (proj2 (Z.ltb_lt 0 (k + 1))) by lia.
    rewrite Z.shiftr_0_r. reflexivity.
  - rewrite list_lookup_alter_ne by congruence.
    destruct (t !! m) as [e |]; cbn; [| reflexivity].
    replace (Z.of_nat m - start) with (Z.of_nat m - (start + 1) + 1) by lia.
    set (j := Z.of_nat m - (start + 1)).
    assert (j <> -1) by lia.
    destruct (Z.leb_spec 0 j) as [Hj | Hj].
    + rewrite (proj2 (Z.leb_le 0 (j + 1))) by lia. cbn [andb].
      destruct (Z.ltb_spec j k) as [Hjk | Hjk].
      * rewrite (proj2 (Z.ltb_lt (j + 1) (k + 1))) by lia.
        rewrite Z.shiftr_shiftr by lia. rewrite (Z.add_comm 1 j). reflexivity.
      * rewrite (proj2 (Z.ltb_ge (j + 1) (k + 1))) by lia. reflexivity.
    + rewrite (proj2 (Z.leb_gt 0 (j + 1))) by lia. reflexivity.
Qed.

(** One turn of the loop on a pin that is in the table, and on one that is
    not. *)
Lemma digital_message_loop_step self pin pins pd w :
  data_lock self ∉ held w ->
  0 <= pin < Z.of_nat (length (digital_response_table w)) ->
  let w1 := set_held (held w ∪ {[data_lock self]}) w in
  let w2 := stored DigitalRef (Z.to_nat pin) (Z.land pd 1) w1 in
  let w3 := stored DigitalRef (Z.to_nat pin) (Z.land pd 1) w in
  digital_message_loop self (pin :: pins) pd w =
  after w1 (after w2 (after w3
    (digital_message_loop self pins (Z.shiftr pd 1) w3))).
Proof.
  intros Hfree Hpin w1 w2 w3. cbn [digital_message_loop].
  rewrite bind_acquire by done.
  rewrite (bind_store_value _ _ _ (Z.to_nat pin))
    by (apply index_of_in_range; exact Hpin).
  rewrite bind_release. fold w1. fold w2.
  subst w2 w1. rewrite locked_store by done. reflexivity.
Qed.

Lemma digital_message_loop_out self pin pins pd w :
  data_lock self ∉ held w ->
  Z.of_nat (length (digital_response_table w)) <= pin ->
  let w1 := set_held (held w ∪ {[data_lock self]}) w in
  digital_message_loop self (pin :: pins) pd w =
  mkRun [w1] w1 (inl (Raise IndexError)).
Proof.
  intros Hfree Hpin w1. cbn [digital_message_loop].
  rewrite bind_acquire by done.
  rewrite bind_store_value_out by (apply index_of_too_big; exact Hpin).
  reflexivity.
Qed.

Lemma seqZ_S start (n : nat) :
  seqZ start (Z.of_nat (S n)) = start :: seqZ (start + 1) (Z.of_nat n).
Proof.
  rewrite seqZ_cons by lia. f_equal. f_equal; lia.
Qed.

Lemma held_stored_free (l : nat) r n v w :
  l ∉ held w -> l ∉ held (stored r n v w).
Proof. rewrite held_stored. trivial. Qed.

Lemma digital_stored_digital n v w :
  digital_response_table (stored DigitalRef n v w) =
  alter (fun e => Entry (mode e) v) n (digital_response_table w).
Proof. reflexivity. Qed.

(** Where the loop over [n] pins from [start] on ends: it has written as
    many of the pins as the table holds, and raised at the first one that
    is missing. *)
Lemma digital_message_loop_final self (n : nat) : forall start pd w,
  data_lock self ∉ held w ->
  0 <= start ->
  let t := digital_response_table w in
  let avail := Z.of_nat (length t) - start in
  let r := digital_message_loop self (seqZ start (Z.of_nat n)) pd w in
  digital_response_table (final r)
    = port_written start (Z.min (Z.of_nat n) avail) pd t /\
  analog_response_table (final r) = analog_response_table w /\
  outcome r = (if Z.of_nat n <=? Z.max 0 avail then inr tt
               else inl (Raise IndexError)).
Proof.
  induction n as [| n IH]; intros start pd w Hfree Hstart t avail r.
  - subst r. cbn. rewrite port_written_nothing by lia.
    split; [reflexivity |]. split; [reflexivity |].
    rewrite (proj2 (Z.leb_le _ _)) by lia. reflexivity.
  - subst r. rewrite seqZ_S.
    destruct (Z.lt_ge_cases start (Z.of_nat (length t))) as [Hin | Hout].
    + rewrite digital_message_loop_step by (done || (fold t; lia)).
      cbn [after final outcome].
      set (w3 := stored DigitalRef (Z.to_nat start) (Z.land pd 1) w).
      destruct (IH (start + 1) (Z.shiftr pd 1) w3) as (Hd & Ha & Ho).
      { apply held_stored_free. done. }
      { lia. }
      rewrite Hd, Ha, Ho.
      subst w3. rewrite digital_stored_digital, length_alter. fold t.
      replace (Z.min (Z.of_nat (S n)) avail)
        with (Z.min (Z.of_nat n) (Z.of_nat (length t) - (start + 1)) + 1)
        by (subst avail; lia).
      rewrite port_written_step by lia.
      split; [reflexivity |]. split; [reflexivity |].
      subst avail.
      destruct (Z.leb_spec (Z.of_nat n)
                  (Z.max 0 (Z.of_nat (length t) - (start + 1))));
        destruct (Z.leb_spec (Z.of_nat (S n))
                    (Z.max 0 (Z.of_nat (length t) - start)));
        try reflexivity; lia.
    + rewrite digital_message_loop_out by (done || (fold t; lia)).
      cbn [final outcome].
      rewrite port_written_nothing by (subst avail; lia).
      split; [reflexivity |]. split; [reflexivity |].
      rewrite (proj2 (Z.leb_gt _ _)) by (subst avail; lia). reflexivity.
Qed.

(** While the loop runs on pins that are all in the table, the lock is
    free again after each single store: for every [k] there is a moment
    with nobody holding it at which just the first [k] pins are written. *)
Lemma digital_message_loop_between self (n : nat) : forall start pd w k,
  data_lock self ∉ held w ->
  0 <= start ->
  start + Z.of_nat n <= Z.of_nat (length (digital_response_table w)) ->
  1 <= k <= Z.of_nat n ->
  exists s,
    s ∈ trace (digital_message_loop self (seqZ start (Z.of_nat n)) pd w) /\
    (data_lock self ∉ held s) /\
    digital_response_table s
      = port_written start k pd (digital_response_table w) /\
    analog_response_table s = analog_response_table w.
Proof.
  induction n as [| n IH]; intros start pd w k Hfree Hstart Hlen Hk; [lia |].
  rewrite seqZ_S.
  rewrite digital_message_loop_step by (done || lia).
  cbn [after trace].
  set (w3 := stored DigitalRef (Z.to_nat start) (Z.land pd 1) w).
  destruct (decide (k = 1)) as [-> | Hk1].
  - exists w3. split; [| split; [| split]].
    + rewrite !elem_of_cons. auto.
    + apply held_stored_free. done.
    + subst w3. rewrite digital_stored_digital.
      rewrite <- (port_written_step start 0) by lia.
      rewrite port_written_nothing by lia. reflexivity.
    + reflexivity.
  - destruct (IH (start + 1) (Z.shiftr pd 1) w3 (k - 1))
      as (s & Hs & Hfree_s & Hd & Ha).
    { apply held_stored_free. done. }
    { lia. }
    { subst w3. rewrite digital_stored_digital, length_alter. lia. }
    { lia. }
    exists s. split; [| split; [| split]].
    + rewrite !elem_of_cons. auto.
    + exact Hfree_s.
    + rewrite Hd. subst w3. rewrite digital_stored_digital.
      replace k with (k - 1 + 1) at 2 by lia.
      apply port_written_step; lia.
    + rewrite Ha. reflexivity.
Qed.

Lemma digital_message_unfold self w p lsb msb rest :
  digital_message self (p :: lsb :: msb :: rest) w =
  digital_message_loop self (seqZ (p * 8) (Z.of_nat 8))
    (Z.shiftl msb 7 + lsb) w.
Proof.
  unfold digital_message, MSB, LSB.
  rewrite item_0, bind_ret, item_2, bind_ret, item_1, bind_ret.
  unfold range. replace (p * 8 + 8 - p * 8) with (Z.of_nat 8) by lia.
  reflexivity.
Qed.

(** ** [system_reset] and the constructor *)

Lemma bind_run {A B} (m : M A) (k : A -> M B) w a :
  outcome (m w) = inr a ->
  bind m k w =
  mkRun (trace (m w) ++ trace (k a (final (m w))))
    (final (k a (final (m w)))) (outcome (k a (final (m w)))).
Proof. intros H. unfold bind. rewrite H. reflexivity. Qed.

Lemma set_table_set_table r t t' w :
  set_table r t (set_table r t' w) = set_table r t w.
Proof. destruct r; reflexivity. Qed.

Lemma deref_set_table r t w : deref (set_table r t w) r = t.
Proof. destruct r; reflexivity. Qed.

Lemma held_set_table r t w : held (set_table r t w) = held w.
Proof. destruct r; reflexivity. Qed.

Lemma set_table_deref r w : set_table r (deref w r) w = w.
Proof. destruct r, w; reflexivity. Qed.

Lemma bind_append_entry {B} r e (k : unit -> M B) w :
  bind (append_entry r e) k w =
  after (set_table r (deref w r ++ [e]) w)
    (k tt (set_table r (deref w r ++ [e]) w)).
Proof. reflexivity. Qed.

Lemma bind_pop_entry {B} r (k : unit -> M B) w e t :
  deref w r = e :: t ->
  bind (pop_entry r) k w =
  after (set_table r (removelast (e :: t)) w)
    (k tt (set_table r (removelast (e :: t)) w)).
Proof.
  intros Ht. unfold pop_entry. rewrite bind_bind, bind_ask, Ht.
  rewrite bind_act, Ht. reflexivity.
Qed.

(** A run of appends: the table grows by one entry per turn; the locks
    stay as they are throughout. *)
Lemma appends_run {A} (l : list A) r e : forall w,
  let x := for_each l (fun _ => append_entry r e) w in
  outcome x = inr tt /\
  final x = set_table r (deref w r ++ replicate (length l) e) w /\
  Forall (fun s => held s = held w) (trace x).
Proof.
  induction l as [| a l IH]; intros w x; subst x.
  - cbn. rewrite app_nil_r, set_table_deref. auto.
  - cbn [for_each]. rewrite !bind_append_entry.
    cbn [after trace final outcome].
    set (w1 := set_table r (deref w r ++ [e]) w).
    destruct (IH w1) as (Ho & Hf & Ht).
    split; [exact Ho |]. split.
    + rewrite Hf. subst w1. rewrite deref_set_table, set_table_set_table.
      rewrite <- app_assoc. reflexivity.
    + constructor.
      * subst w1. apply held_set_table.
      * eapply Forall_impl; [exact Ht |]. intros s Hs. cbn in Hs.
        rewrite Hs. subst w1. apply held_set_table.
Qed.

(** A run of as many pops as the table has entries empties it. *)
Lemma pops_run {A} (l : list A) r : forall w,
  length l = length (deref w r) ->
  let x := for_each l (fun _ => pop_entry r) w in
  outcome x = inr tt /\
  final x = set_table r [] w /\
  Forall (fun s => held s = held w) (trace x).
Proof.
  induction l as [| a l IH]; intros w Hlen x; subst x.
  - cbn. destruct (deref w r) eqn:Ht; [| discriminate].
    rewrite <- Ht, set_table_deref. auto.
  - cbn [for_each].
    destruct (deref w r) as [| e0 t0] eqn:Ht; [discriminate |].
    rewrite !(bind_pop_entry _ _ _ e0 t0) by exact Ht.
    cbn [after trace final outcome].
    set (w1 := set_table r (removelast (e0 :: t0)) w).
    destruct (IH w1) as (Ho & Hf & Htr).
    { subst w1. rewrite deref_set_table.
      destruct (exists_last (l := e0 :: t0)) as (t' & y & Heq);
        [discriminate |].
      rewrite Heq, removelast_last.
      assert (length (e0 :: t0) = length (t' ++ [y])) as Hl by (f_equal; done).
      rewrite length_app in Hl. cbn in Hl, Hlen. lia. }
    split; [exact Ho |]. split.
    + rewrite Hf. subst w1. apply set_table_set_table.
    + constructor.
      * subst w1. apply held_set_table.
      * eapply Forall_impl; [exact Htr |]. intros s Hs. cbn in Hs.
        rewrite Hs. subst w1. apply held_set_table.
Qed.

Lemma length_range_0 n : length (range 0 n) = Z.to_nat n.
Proof. unfold range. rewrite length_seqZ. f_equal. lia. Qed.

(** The states [system_reset] passes through: the byte is written first;
    from then until the very last step the lock is held. *)
Lemma system_reset_run self w :
  data_lock self ∉ held w ->
  exists mid,
    Forall (fun s => data_lock self ∈ held s) mid /\
    system_reset self w =
    mkRun (set_wire (wire w ++ [(transport self, ascii_of_N 255)]) w
             :: mid ++ [reset_world self w])
      (reset_world self w) (inr tt).
Proof.
  intros Hfree. unfold system_reset.
  change (chr_ SYSTEM_RESET) with (@ret ascii (ascii_of_N 255)).
  rewrite bind_ret. unfold write at 1. rewrite bind_act.
  set (w1 := set_wire (wire w ++ [(transport self, ascii_of_N 255)]) w).
  rewrite bind_acquire by done.
  set (w2 := set_held (held w1 ∪ {[data_lock self]}) w1).
  rewrite bind_ask.
  destruct (pops_run (range 0 (Z.of_nat (length (digital_response_table w2))))
              DigitalRef w2) as (Ho1 & Hf1 & Ht1).
  { rewrite length_range_0. cbn [deref]. lia. }
  rewrite (bind_run _ _ _ _ Ho1), Hf1.
  set (w3 := set_table DigitalRef [] w2).
  rewrite bind_ask.
  destruct (pops_run (range 0 (Z.of_nat (length (analog_response_table w3))))
              AnalogRef w3) as (Ho2 & Hf2 & Ht2).
  { rewrite length_range_0. cbn [deref]. lia. }
  rewrite (bind_run _ _ _ _ Ho2), Hf2.
  set (w4 := set_table AnalogRef [] w3).
  destruct (appends_run (range 0 (number_digital_pins self)) DigitalRef
              (Entry INPUT 0) w4) as (Ho3 & Hf3 & Ht3).
  rewrite (bind_run _ _ _ _ Ho3), Hf3.
  set (w5 := set_table DigitalRef _ w4).
  destruct (appends_run (range 0 (number_analog_pins self)) AnalogRef
              (Entry INPUT 0) w5) as (Ho4 & Hf4 & Ht4).
  rewrite (bind_run _ _ _ _ Ho4), Hf4.
  set (w6 := set_table AnalogRef _ w5).
  cbn [after trace final outcome]. unfold release, act.
  cbn [trace final outcome].
  assert (Hw : set_held (held w6 ∖ {[data_lock self]}) w6
               = reset_world self w).
  { subst w6 w5 w4 w3 w2 w1. rewrite !length_range_0.
    unfold reset_world. destruct w; cbn in *.
    rewrite lock_round_trip by done. reflexivity. }
  rewrite Hw.
  assert (Hin : data_lock self ∈ held w2).
  { subst w2. cbn. apply elem_of_union_r, elem_of_singleton. reflexivity. }
  exists
    (w2 :: trace (for_each
                    (range 0 (Z.of_nat (length (digital_response_table w2))))
                    (fun _ => pop_entry DigitalRef) w2)
        ++ trace (for_each
                    (range 0 (Z.of_nat (length (analog_response_table w3))))
                    (fun _ => pop_entry AnalogRef) w3)
        ++ trace (for_each (range 0 (number_digital_pins self))
                    (fun _ => append_entry DigitalRef (Entry INPUT 0)) w4)
        ++ trace (for_each (range 0 (number_analog_pins self))
                    (fun _ => append_entry AnalogRef (Entry INPUT 0)) w5)).
  split.
  2:{ cbn [app]. rewrite <- !app_assoc. reflexivity. }
  constructor; [exact Hin |].
  rewrite !Forall_app. repeat split.
  - eapply Forall_impl; [exact Ht1 |]. intros s Hs. cbn beta in Hs.
    rewrite Hs. exact Hin.
  - eapply Forall_impl; [exact Ht2 |]. intros s Hs. cbn beta in Hs.
    rewrite Hs. exact Hin.
  - eapply Forall_impl; [exact Ht3 |]. intros s Hs. cbn beta in Hs.
    rewrite Hs. exact Hin.
  - eapply Forall_impl; [exact Ht4 |]. intros s Hs. cbn beta in Hs.
    rewrite Hs. exact Hin.
Qed.

Lemma init_run t q l nd na w :
  let r := __init__ t q l nd na w in
  outcome r = inr (mkHandler t q l nd na) /\
  final r =
    set_table AnalogRef
      (analog_response_table w ++ replicate (Z.to_nat na) (Entry INPUT 0))
      (set_table DigitalRef
         (digital_response_table w ++ replicate (Z.to_nat nd) (Entry INPUT 0))
         w).
Proof.
  intros r. subst r. unfold __init__.
  destruct (appends_run (range 0 nd) DigitalRef (Entry INPUT 0) w)
    as (Ho1 & Hf1 & _).
  rewrite (bind_run _ _ _ _ Ho1), Hf1.
  set (w1 := set_table DigitalRef _ w).
  destruct (appends_run (range 0 na) AnalogRef (Entry INPUT 0) w1)
    as (Ho2 & Hf2 & _).
  rewrite (bind_run _ _ _ _ Ho2), Hf2.
  cbn [trace final outcome ret]. subst w1. rewrite !length_range_0.
  split; reflexivity.
Qed.

(** ** Two bytes per character *)

Lemma every_other_odd {A} (p : list A) (x : A) :
  Nat.Even (length p) -> every_other (p ++ [x]) = every_other p ++ [x].
Proof.
  revert p. fix IH 1. intros [| a [| b p]] Hev.
  - reflexivity.
  - destruct Hev as [k Hk]. cbn in Hk. lia.
  - cbn [app every_other]. f_equal. apply IH.
    destruct Hev as [k Hk]. cbn in Hk. exists (k - 1)%nat. lia.
Qed.

Lemma every_other_even_length {A} (p : list A) :
  Nat.Even (length p) -> (2 * length (every_other p) = length p)%nat.
Proof.
  revert p. fix IH 1. intros [| a [| b p]] Hev.
  - reflexivity.
  - destruct Hev as [k Hk]. cbn in Hk. lia.
  - cbn [every_other length].
    assert (Nat.Even (length p)) as Hp.
    { destruct Hev as [k Hk]. cbn in Hk. exists (k - 1)%nat. lia. }
    specialize (IH p Hp). lia.
Qed.

Lemma Forall_every_other {A} (P : A -> Prop) (l : list A) :
  Forall P l -> Forall P (every_other l).
Proof.
  revert l. fix IH 1. intros [| a [| b l]] H.
  - constructor.
  - exact H.
  - cbn [every_other]. inversion H as [| ? ? Ha H']. subst.
    inversion H' as [| ? ? Hb H'']. subst.
    constructor; [exact Ha | apply IH; exact H''].
Qed.

Lemma chr_byte i : is_byte i -> chr i = inr (ascii_of_N (Z.to_N i)).
Proof.
  intros [H0 H1]. unfold chr.
  rewrite (proj2 (Z.leb_le 0 i)), (proj2 (Z.ltb_lt i 256)) by lia.
  reflexivity.
Qed.

Lemma bind_chr_each {B} (l : list Z) (k : list ascii -> M B) w :
  Forall is_byte l ->
  bind (chr_each l) k w = k (map (fun i => ascii_of_N (Z.to_N i)) l) w.
Proof.
  revert k. induction l as [| i l IH]; intros k Hl.
  - cbn. apply bind_ret.
  - inversion Hl as [| ? ? Hi Hl']. subst. cbn [chr_each map].
    unfold chr_. rewrite (chr_byte i Hi).
    rewrite bind_bind, bind_ret, bind_bind, IH by exact Hl'.
    apply bind_ret.
Qed.

(** ** Turns of the receive loop *)

Lemma bind_popleft {B} q (k : Z -> M B) w data rest :
  queued q w = data :: rest ->
  bind (popleft q) k w = after (popped q rest w) (k data (popped q rest w)).
Proof.
  intros Hq. unfold popleft. rewrite bind_bind, bind_ask, Hq.
  rewrite bind_bind, bind_act. unfold after. rewrite bind_ret. reflexivity.
Qed.

Lemma queued_popped q rest w : queued q (popped q rest w) = rest.
Proof. unfold queued, popped. cbn. rewrite lookup_insert_eq. reflexivity. Qed.

Lemma bind_dispatch_get {B} key (k : option (method * Z) -> M B) w :
  bind (dispatch_get key) k w = k (command_dispatch w !! key) w.
Proof.
  unfold dispatch_get. rewrite bind_bind, bind_ask. apply bind_ret.
Qed.

Lemma run_loop_turn {fuel} self w data rest :
  queued (command_deque self) w = data :: rest ->
  run_loop (S fuel) self w =
  after (popped (command_deque self) rest w)
    ((if data =? START_SYSEX then
        sysex_command <- popleft (command_deque self) ;;
        dispatch_entry <- dispatch_get sysex_command ;;
        m <- entry_method dispatch_entry ;;
        sysex_loop fuel self m [] ;;
        run_loop fuel self
      else if (0x80 <=? data) && (data <=? 0xff) then
        let '(data, command_data) := command_key data in
        dispatch_entry <- dispatch_get data ;;
        m <- entry_method dispatch_entry ;;
        num_args <- entry_num_args dispatch_entry ;;
        command_data <-
          take_args (length (range 0 num_args)) self command_data ;;
        invoke self m command_data ;;
        run_loop fuel self
      else run_loop fuel self) (popped (command_deque self) rest w)).
Proof.
  intros Hq. cbn [run_loop]. rewrite bind_ask, Hq.
  rewrite bool_decide_eq_false_2 by discriminate.
  rewrite (bind_popleft _ _ _ data rest) by exact Hq. reflexivity.
Qed.

Lemma bind_abort {A B} (m : M A) (k : A -> M B) w t w' e :
  m w = mkRun t w' (inl e) -> bind m k w = mkRun t w' (inl e).
Proof. intros H. unfold bind. rewrite H. reflexivity. Qed.

(** ** The loop bound of [run] is never used up *)

Lemma tame_ret {A} (a : A) : tame (ret a).
Proof. intros w. split; [reflexivity | discriminate]. Qed.

Lemma tame_stop {A} (e : abort) : e <> Fuel -> tame (@stop A e).
Proof. intros He w. split; [reflexivity | cbn; congruence]. Qed.

Lemma tame_ask : tame ask.
Proof. intros w. split; [reflexivity | discriminate]. Qed.

Lemma tame_act f : (forall w, deques (f w) = deques w) -> tame (act f).
Proof. intros Hf w. split; [apply Hf | discriminate]. Qed.

Lemma tame_bind {A B} (m : M A) (k : A -> M B) :
  tame m -> (forall a, tame (k a)) -> tame (bind m k).
Proof.
  intros Hm Hk w. destruct (Hm w) as [Hd Ho]. unfold bind.
  destruct (outcome (m w)) as [e | a] eqn:Hout; cbn.
  - split; [exact Hd |]. intros [= ->]. apply Ho. reflexivity.
  - destruct (Hk a (final (m w))) as [Hd' Ho'].
    split; [congruence | exact Ho'].
Qed.

Lemma deques_set_table r t w : deques (set_table r t w) = deques w.
Proof. destruct r; reflexivity. Qed.

Lemma tame_item {A} (l : list A) i : tame (item l i).
Proof.
  unfold item. destruct (getitem l i); [apply tame_ret |].
  apply tame_stop. discriminate.
Qed.

Lemma tame_chr_each l : tame (chr_each l).
Proof.
  induction l as [| i l IH]; [apply tame_ret |]. cbn [chr_each].
  apply tame_bind.
  - unfold chr_. destruct (chr i); [| apply tame_ret].
    apply tame_stop. discriminate.
  - intros c. apply tame_bind; [exact IH |]. intros cs. apply tame_ret.
Qed.

Lemma tame_for_each {A} (l : list A) (body : A -> M unit) :
  (forall x, tame (body x)) -> tame (for_each l body).
Proof.
  intros Hb. induction l as [| x l IH]; [apply tame_ret |].
  cbn [for_each]. apply tame_bind; [apply Hb | intros _; exact IH].
Qed.

Lemma tame_acquire l : tame (acquire l).
Proof.
  unfold acquire. apply tame_bind; [apply tame_ask |]. intros w.
  destruct (bool_decide (l ∈ held w)).
  - apply tame_stop. discriminate.
  - apply tame_act. reflexivity.
Qed.

Lemma tame_release l : tame (release l).
Proof. apply tame_act. reflexivity. Qed.

Lemma tame_store_value r i v : tame (store_value r i v).
Proof.
  unfold store_value. apply tame_bind; [apply tame_ask |]. intros w.
  destruct (index_of (length (deref w r)) i).
  - apply tame_act. intros w'. apply deques_set_table.
  - apply tame_stop. discriminate.
Qed.

Lemma tame_digital_message_loop self pins : forall pd,
  tame (digital_message_loop self pins pd).
Proof.
  induction pins as [| pin pins IH]; intros pd; [apply tame_ret |].
  cbn [digital_message_loop].
  apply tame_bind; [apply tame_acquire | intros _].
  apply tame_bind; [apply tame_store_value | intros _].
  apply tame_bind; [apply tame_release | intros _]. apply IH.
Qed.

Create HintDb tame.
#[local] Hint Resolve tame_ret tame_ask tame_item tame_chr_each
  tame_acquire tame_release tame_store_value tame_digital_message_loop
  : tame.

Ltac tame_step :=
  cbv zeta;
  first [ solve [auto with tame]
        | apply tame_bind; [| intros ?]
        | apply tame_act; reflexivity ].

Lemma tame_invoke self m data : tame (invoke self m data).
Proof.
  destruct m; cbn [invoke];
    [ unfold report_version | unfold report_firmware
    | unfold analog_message | unfold digital_message
    | unfold encoder_data | unfold _string_data ];
    repeat tame_step.
Qed.

Lemma tame_bounded {A} q n (m : M A) : tame m -> bounded q n m.
Proof.
  intros Hm w Hw. destruct (Hm w) as [Hd Ho].
  split; [exact Ho |]. unfold queued. rewrite Hd. exact Hw.
Qed.

Lemma bounded_bind {A B} q n (m : M A) (k : A -> M B) :
  bounded q n m -> (forall a, bounded q n (k a)) -> bounded q n (bind m k).
Proof.
  intros Hm Hk w Hw. destruct (Hm w Hw) as [Ho Hl]. unfold bind.
  destruct (outcome (m w)) as [e | a] eqn:Hout; cbn.
  - split; [| exact Hl]. intros [= ->]. apply Ho. reflexivity.
  - apply (Hk a). exact Hl.
Qed.

Lemma length_queued_popped q rest w :
  length (queued q (popped q rest w)) = length rest.
Proof. rewrite queued_popped. reflexivity. Qed.

(** Taking a byte off the deque lowers the bound by one for what follows;
    with nothing queued the wait never ends. *)
Lemma bounded_popleft_bind {B} q n (k : Z -> M B) :
  (forall n' data, n = S n' -> bounded q n' (k data)) ->
  bounded q n (bind (popleft q) k).
Proof.
  intros Hk w Hw.
  destruct (queued q w) as [| data rest] eqn:Hq.
  - unfold popleft. rewrite bind_bind, bind_ask, Hq. cbn.
    split; [discriminate |]. rewrite Hq. cbn. lia.
  - rewrite (bind_popleft _ _ _ data rest) by exact Hq.
    cbn [after final outcome]. cbn in Hw.
    destruct n as [| n']; [lia |].
    destruct (Hk n' data eq_refl (popped q rest w)) as [Ho Hl].
    { rewrite length_queued_popped. lia. }
    split; [exact Ho | lia].
Qed.

Lemma sysex_loop_bounded self m fuel : forall n command_data,
  (n < fuel)%nat ->
  bounded (command_deque self) n (sysex_loop fuel self m command_data).
Proof.
  induction fuel as [| fuel IH]; intros n command_data Hn; [lia |].
  cbn [sysex_loop]. apply bounded_popleft_bind. intros n' data ->.
  destruct (data =? END_SYSEX).
  - apply tame_bounded, tame_invoke.
  - apply IH. lia.
Qed.

Lemma take_args_bounded self (k : nat) : forall n command_data,
  bounded (command_deque self) n (take_args k self command_data).
Proof.
  induction k as [| k IH]; intros n command_data.
  - apply tame_bounded, tame_ret.
  - cbn [take_args]. apply bounded_popleft_bind. intros n' data ->.
    intros w Hw. destruct (IH n' (command_data ++ [data]) w Hw) as [Ho Hl].
    split; [exact Ho | exact Hl].
Qed.

Lemma tame_dispatch_get key : tame (dispatch_get key).
Proof.
  unfold dispatch_get. apply tame_bind; [apply tame_ask |].
  intros w. apply tame_ret.
Qed.

Lemma tame_entry_method e : tame (entry_method e).
Proof.
  destruct e as [[m n] |]; [apply tame_ret | apply tame_stop; discriminate].
Qed.

Lemma tame_entry_num_args e : tame (entry_num_args e).
Proof.
  destruct e as [[m n] |]; [apply tame_ret | apply tame_stop; discriminate].
Qed.

(** With more fuel than bytes queued the receive loop never stops for
    lack of fuel: it ends by an exception or by waiting for bytes. *)
Lemma run_loop_bounded self fuel : forall n,
  (n < fuel)%nat -> bounded (command_deque self) n (run_loop fuel self).
Proof.
  induction fuel as [| fuel IH]; intros n Hn; [lia |].
  intros w Hw.
  destruct (queued (command_deque self) w) as [| data rest] eqn:Hq.
  - cbn [run_loop]. rewrite bind_ask, Hq. cbn.
    split; [discriminate |]. rewrite Hq. cbn. lia.
  - rewrite (run_loop_turn _ _ _ _ Hq). cbn [after final outcome].
    cbn in Hw. destruct n as [| n]; [lia |].
    set (w1 := popped (command_deque self) rest w).
    assert (Hw1 : (length (queued (command_deque self) w1) <= n)%nat).
    { subst w1. rewrite length_queued_popped. lia. }
    assert (Hloop : bounded (command_deque self) n (run_loop fuel self))
      by (apply IH; lia).
    enough (bounded (command_deque self) n
              (if data =? START_SYSEX then
                 sysex_command <- popleft (command_deque self) ;;
                 dispatch_entry <- dispatch_get sysex_command ;;
                 m <- entry_method dispatch_entry ;;
                 sysex_loop fuel self m [] ;;
                 run_loop fuel self
               else if (0x80 <=? data) && (data <=? 0xff) then
                 let '(data, command_data) := command_key data in
                 dispatch_entry <- dispatch_get data ;;
                 m <- entry_method dispatch_entry ;;
                 num_args <- entry_num_args dispatch_entry ;;
                 command_data <-
                   take_args (length (range 0 num_args)) self command_data ;;
                 invoke self m command_data ;;
                 run_loop fuel self
               else run_loop fuel self)) as Hb.
    { destruct (Hb w1 Hw1) as [Ho Hl]. split; [exact Ho | lia]. }
    destruct (data =? START_SYSEX).
    + apply bounded_popleft_bind. intros n' c ->.
      assert (Hloop' : bounded (command_deque self) n' (run_loop fuel self))
        by (apply IH; lia).
      apply bounded_bind; [apply tame_bounded, tame_dispatch_get |].
      intros e. apply bounded_bind; [apply tame_bounded, tame_entry_method |].
      intros m. apply bounded_bind; [apply sysex_loop_bounded; lia |].
      intros _. exact Hloop'.
    + destruct ((0x80 <=? data) && (data <=? 0xff)); [| exact Hloop].
      destruct (command_key data) as [key command_data].
      apply bounded_bind; [apply tame_bounded, tame_dispatch_get |].
      intros e. apply bounded_bind; [apply tame_bounded, tame_entry_method |].
      intros m.
      apply bounded_bind; [apply tame_bounded, tame_entry_num_args |].
      intros k. apply bounded_bind; [apply take_args_bounded |].
      intros cd. apply bounded_bind; [apply tame_bounded, tame_invoke |].
      intros _. exact Hloop.
Qed.

Lemma run_never_out_of_fuel self w : outcome (run self w) <> inl Fuel.
Proof.
  unfold run, dispatch_update. rewrite !bind_act, bind_ask.
  cbn [after outcome].
  match goal with
  | |- outcome (run_loop (S ?n) self ?w') <> _ =>
      apply (run_loop_bounded self (S n) n); lia
  end.
Qed.

(** * The claims *)

(** C4. A DIGITAL_MESSAGE for port [p] whose two data bytes make up [b]
    sets the value of every pin [p*8+i], [i] in 0..7, that the digital
    table has to bit [i] of [b], and leaves its mode alone; when the table
    has all eight pins of the port the handler returns normally. *)
Theorem digital_message_sets_port_bits self w p b lsb msb i e :
  data_lock self ∉ held w ->
  0 <= p ->
  Z.shiftl msb 7 + lsb = b ->
  0 <= i < 8 ->
  digital_response_table w !! Z.to_nat (p * 8 + i) = Some e ->
  let r := digital_message self [p; lsb; msb] w in
  getitem (digital_response_table (final r)) (p * 8 + i)
    = Some (Entry (mode e) (Z.land (Z.shiftr b i) 1)) /\
  (p * 8 + 8 <= Z.of_nat (length (digital_response_table w)) ->
   outcome r = inr tt).
Proof.
  intros Hfree Hp Hb Hi He r. subst r.
  rewrite digital_message_unfold, Hb.
  destruct (digital_message_loop_final self 8 (p * 8) b w Hfree ltac:(lia))
    as (Hd & _ & Ho).
  apply lookup_lt_Some in He as Hlt.
  split.
  - rewrite Hd, getitem_in_range by lia.
    rewrite port_written_lookup, He. cbn [fmap option_fmap option_map].
    replace (Z.of_nat (Z.to_nat (p * 8 + i)) - p * 8) with i by lia.
    rewrite (proj2 (Z.leb_le 0 i)) by lia.
    rewrite (proj2 (Z.ltb_lt i _)) by lia. reflexivity.
  - intros Hall. rewrite Ho.
    rewrite (proj2 (Z.leb_le _ _)) by lia. reflexivity.
Qed.

Lemma digital_message_sets_port_bits_witness :
  getitem
    (digital_response_table
       (final (digital_message uno_handler [1; 0x55; 0x01] uno)))
    (1 * 8 + 7)
  = Some (Entry INPUT 1).
Proof.
  refine (proj1 (digital_message_sets_port_bits uno_handler uno 1 0xD5
                   0x55 0x01 7 (Entry INPUT 0) _ _ _ _ _)).
  - vm_compute. discriminate.
  - lia.
  - reflexivity.
  - lia.
  - reflexivity.
Defined.

(** C5. An ANALOG_MESSAGE for a pin [k] of the analog table carrying the
    14-bit value [v] as LSB then MSB, seven bits each, sets the value of
    [analog[k]] to [v = (MSB << 7) + LSB] and leaves its mode, the other
    analog entries and the digital table alone. *)
Theorem analog_message_stores_value self w k v e :
  data_lock self ∉ held w ->
  0 <= v <= 16383 ->
  0 <= k ->
  analog_response_table w !! Z.to_nat k = Some e ->
  let lsb := Z.land v 0x7f in
  let msb := Z.shiftr v 7 in
  let r := analog_message self [k; lsb; msb] w in
  (0 <= lsb < 128 /\ 0 <= msb < 128 /\ Z.shiftl msb 7 + lsb = v) /\
  outcome r = inr tt /\
  getitem (analog_response_table (final r)) k = Some (Entry (mode e) v) /\
  (forall j, j <> Z.to_nat k ->
     analog_response_table (final r) !! j = analog_response_table w !! j) /\
  digital_response_table (final r) = digital_response_table w.
Proof.
  intros Hfree Hv Hk He lsb msb r.
  pose proof (fourteen_bits v Hv) as Hbits.
  split; [exact Hbits |].
  destruct Hbits as (_ & _ & Hsum).
  assert (Hin : index_of (length (analog_response_table w)) k
                = Some (Z.to_nat k)).
  { apply index_of_in_range. apply lookup_lt_Some in He. lia. }
  subst r. rewrite (analog_message_run _ _ _ _ _ _ _ Hfree Hin).
  subst lsb msb. rewrite Hsum. cbn [outcome final].
  split; [reflexivity |]. split; [| split].
  - rewrite getitem_in_range by lia.
    change (analog_response_table (stored AnalogRef (Z.to_nat k) v w))
      with (deref (stored AnalogRef (Z.to_nat k) v w) AnalogRef).
    rewrite deref_stored. cbn [deref].
    rewrite list_lookup_alter_eq, He. reflexivity.
  - intros j Hj.
    change (analog_response_table (stored AnalogRef (Z.to_nat k) v w))
      with (deref (stored AnalogRef (Z.to_nat k) v w) AnalogRef).
    rewrite deref_stored. cbn [deref].
    apply list_lookup_alter_ne. congruence.
  - reflexivity.
Qed.

Lemma analog_message_stores_value_witness :
  getitem
    (analog_response_table
       (final (analog_message uno_handler
                 [3; Z.land 1000 0x7f; Z.shiftr 1000 7] uno))) 3
  = Some (Entry INPUT 1000).
Proof.
  refine (proj1 (proj2 (proj2
    (analog_message_stores_value uno_handler uno 3 1000 (Entry INPUT 0)
       _ _ _ _)))).
  - vm_compute. discriminate.
  - lia.
  - lia.
  - reflexivity.
Defined.

(** C6. An ENCODER_DATA message [[pin, LSB, MSB]] for a pin of the digital
    table stores, with [raw = (MSB << 7) + LSB], the value [raw - 16384]
    when [raw > 8192] and [raw] otherwise, and it stores it in the value of
    [digital[pin]]: the mode of that entry, the other digital entries and
    the analog table stay as they are. *)
Theorem encoder_data_stores_signed_value self w pin lsb msb e :
  data_lock self ∉ held w ->
  0 <= pin ->
  digital_response_table w !! Z.to_nat pin = Some e ->
  let raw := Z.shiftl msb 7 + lsb in
  let r := encoder_data self [pin; lsb; msb] w in
  outcome r = inr tt /\
  (exists val,
     getitem (digital_response_table (final r)) pin
       = Some (Entry (mode e) val) /\
     (raw > 8192 -> val = raw - 16384) /\
     (raw <= 8192 -> val = raw)) /\
  (forall j, j <> Z.to_nat pin ->
     digital_response_table (final r) !! j = digital_response_table w !! j) /\
  analog_response_table (final r) = analog_response_table w.
Proof.
  intros Hfree Hpin He raw r.
  assert (Hin : index_of (length (digital_response_table w)) pin
                = Some (Z.to_nat pin)).
  { apply index_of_in_range. apply lookup_lt_Some in He. lia. }
  subst r. rewrite (encoder_data_run _ _ _ _ _ _ _ Hfree Hin).
  fold raw. cbn [outcome final].
  split; [reflexivity |]. split; [| split].
  - exists (encoder_value raw). split; [| split].
    + rewrite getitem_in_range by lia.
      rewrite digital_stored_digital, list_lookup_alter_eq, He. reflexivity.
    + intros Hraw. unfold encoder_value.
      rewrite (proj2 (Z.ltb_lt 8192 raw)) by lia. reflexivity.
    + intros Hraw. unfold encoder_value.
      rewrite (proj2 (Z.ltb_ge 8192 raw)) by lia. reflexivity.
  - intros j Hj. rewrite digital_stored_digital.
    apply list_lookup_alter_ne. congruence.
  - reflexivity.
Qed.

Lemma encoder_data_stores_signed_value_witness :
  outcome (encoder_data uno_handler [3; 1; 0x7f] uno) = inr tt.
Proof.
  refine (proj1 (encoder_data_stores_signed_value uno_handler uno 3 1 0x7f
                   (Entry INPUT 0) _ _ _)).
  - vm_compute. discriminate.
  - lia.
  - reflexivity.
Defined.

(** C7. [system_reset] first writes the single character 0xFF to the
    transport, the tables being still as they were, and ends with every
    entry of both tables equal to [[INPUT, 0]], the digital table as long
    as [number_digital_pins] and the analog one as [number_analog_pins]. *)
Theorem system_reset_resets_tables self w :
  data_lock self ∉ held w ->
  0 <= number_digital_pins self ->
  0 <= number_analog_pins self ->
  let r := system_reset self w in
  let sent := (transport self, ascii_of_N (Z.to_N SYSTEM_RESET)) in
  outcome r = inr tt /\
  head (trace r) = Some (set_wire (wire w ++ [sent]) w) /\
  wire (final r) = wire w ++ [sent] /\
  digital_response_table (final r)
    = replicate (Z.to_nat (number_digital_pins self)) (Entry INPUT 0) /\
  analog_response_table (final r)
    = replicate (Z.to_nat (number_analog_pins self)) (Entry INPUT 0) /\
  Z.of_nat (length (digital_response_table (final r)))
    = number_digital_pins self /\
  Z.of_nat (length (analog_response_table (final r)))
    = number_analog_pins self.
Proof.
  intros Hfree Hnd Hna r sent. subst r sent.
  destruct (system_reset_run self w Hfree) as (mid & _ & Hrun).
  rewrite Hrun. cbn [outcome trace final head].
  change (Z.to_N SYSTEM_RESET) with 255%N.
  split; [reflexivity |]. split; [reflexivity |].
  unfold reset_world. cbn.
  split; [reflexivity |]. split; [reflexivity |]. split; [reflexivity |].
  rewrite !length_replicate. lia.
Qed.

Lemma system_reset_resets_tables_witness :
  digital_response_table (final (system_reset uno_handler uno))
  = replicate 20 (Entry INPUT 0).
Proof.
  refine (proj1 (proj2 (proj2 (proj2
    (system_reset_resets_tables uno_handler uno _ _ _))))).
  - vm_compute. discriminate.
  - vm_compute. discriminate.
  - vm_compute. discriminate.
Defined.

(** C3, as the claim has it, fails for the DIGITAL_MESSAGE handler: while
    it writes the bits of 0xFF to port 0 of a table of zeros, a thread
    taking the lock can find the first pin at 1 and the other seven still
    at 0. *)
Lemma digital_message_port_seen_half_written :
  map value (take 8 (digital_response_table uno)) = [0; 0; 0; 0; 0; 0; 0; 0] /\
  map value
    (take 8 (digital_response_table
               (final (digital_message uno_handler [0; 0x7f; 0x01] uno))))
    = [1; 1; 1; 1; 1; 1; 1; 1] /\
  exists s,
    s ∈ observable (data_lock uno_handler)
          (digital_message uno_handler [0; 0x7f; 0x01]) uno /\
    map value (take 8 (digital_response_table s)) = [1; 0; 0; 0; 0; 0; 0; 0].
Proof.
  split; [reflexivity |]. split; [vm_compute; reflexivity |].
  exists (stored DigitalRef 0 1 uno). split; [| reflexivity].
  apply list_elem_of_filter. split.
  - vm_compute. discriminate.
  - apply list_elem_of_lookup. exists 3%nat. vm_compute. reflexivity.
Qed.

(** C3, amended. [system_reset] holds the lock from before the first pop
    to after the last append: a thread taking the lock finds both tables
    either as they were or completely reset.  [digital_message] takes and
    gives back the lock around each single entry: for every [k] from 1 to
    8 there is a moment at which the lock is free and exactly the first
    [k] pins of the port have their new value. *)
Theorem reset_is_atomic_port_update_is_not self w :
  data_lock self ∉ held w ->
  (forall s,
     s ∈ observable (data_lock self) (system_reset self) w ->
     (digital_response_table s = digital_response_table w /\
      analog_response_table s = analog_response_table w) \/
     (digital_response_table s
        = replicate (Z.to_nat (number_digital_pins self)) (Entry INPUT 0) /\
      analog_response_table s
        = replicate (Z.to_nat (number_analog_pins self)) (Entry INPUT 0))) /\
  (forall p lsb msb k,
     0 <= p ->
     p * 8 + 8 <= Z.of_nat (length (digital_response_table w)) ->
     1 <= k <= 8 ->
     exists s,
       s ∈ observable (data_lock self)
             (digital_message self [p; lsb; msb]) w /\
       forall i e,
         0 <= i < 8 ->
         digital_response_table w !! Z.to_nat (p * 8 + i) = Some e ->
         digital_response_table s !! Z.to_nat (p * 8 + i)
           = Some (if i <? k
                   then Entry (mode e)
                          (Z.land (Z.shiftr (Z.shiftl msb 7 + lsb) i) 1)
                   else e)).
Proof.
  intros Hfree. split.
  - intros s Hs. unfold observable in Hs.
    apply list_elem_of_filter in Hs as [Hs_free Hs].
    destruct (system_reset_run self w Hfree) as (mid & Hmid & Hrun).
    rewrite Hrun in Hs. cbn [trace] in Hs.
    rewrite !elem_of_cons, elem_of_app, list_elem_of_singleton in Hs.
    destruct Hs as [-> | [-> | [Hs | ->]]].
    + left. split; reflexivity.
    + left. split; reflexivity.
    + rewrite Forall_forall in Hmid. exfalso.
      apply Hs_free, Hmid. exact Hs.
    + right. split; reflexivity.
  - intros p lsb msb k Hp Hlen Hk.
    destruct (digital_message_loop_between self 8 (p * 8)
                (Z.shiftl msb 7 + lsb) w k Hfree)
      as (s & Hs & Hs_free & Hd & _); [lia | lia | lia |].
    exists s. split.
    + unfold observable. apply list_elem_of_filter. split; [exact Hs_free |].
      rewrite digital_message_unfold. apply elem_of_cons. right. exact Hs.
    + intros i e Hi He.
      rewrite Hd, port_written_lookup, He.
      cbn [fmap option_fmap option_map].
      replace (Z.of_nat (Z.to_nat (p * 8 + i)) - p * 8) with i by lia.
      rewrite (proj2 (Z.leb_le 0 i)) by lia. reflexivity.
Qed.

Lemma reset_is_atomic_port_update_is_not_witness :
  exists s,
    s ∈ observable (data_lock uno_handler)
          (digital_message uno_handler [1; 0x55; 0x01]) uno /\
    forall i e,
      0 <= i < 8 ->
      digital_response_table uno !! Z.to_nat (1 * 8 + i) = Some e ->
      digital_response_table s !! Z.to_nat (1 * 8 + i)
        = Some (if i <? 3
                then Entry (mode e)
                       (Z.land (Z.shiftr (Z.shiftl 0x01 7 + 0x55) i) 1)
                else e).
Proof.
  refine (proj2 (reset_is_atomic_port_update_is_not uno_handler uno _)
            1 0x55 0x01 3 _ _ _).
  - vm_compute. discriminate.
  - lia.
  - vm_compute. discriminate.
  - lia.
Defined.

(** C10. [analog_message] and [encoder_data] index their table with the
    pin of the message as it comes: with a pin at or beyond the length of
    the table the handler raises [IndexError], the tables unchanged and the
    lock still held.  The decoder passes any analog pin from 0 to 9 on to
    the handler, so that such a message ends the receive loop with that
    exception instead of being dropped: so do, on an Uno with its 6 analog
    and 20 digital pins, an ANALOG_MESSAGE for pin 9 and an ENCODER_DATA
    message for pin 25. *)
Theorem pin_beyond_table_raises self w pin lsb msb :
  data_lock self ∉ held w ->
  (Z.of_nat (length (analog_response_table w)) <= pin ->
   let r := analog_message self [pin; lsb; msb] w in
   outcome r = inl (Raise IndexError) /\
   final r = set_held (held w ∪ {[data_lock self]}) w) /\
  (Z.of_nat (length (digital_response_table w)) <= pin ->
   let r := encoder_data self [pin; lsb; msb] w in
   outcome r = inl (Raise IndexError) /\
   final r = set_held (held w ∪ {[data_lock self]}) w) /\
  (forall fuel rest,
     Z.of_nat (length (analog_response_table w)) <= pin ->
     0 <= pin <= 9 ->
     queued (command_deque self) w = (0xe0 + pin) :: lsb :: msb :: rest ->
     command_dispatch w !! ANALOG_MESSAGE = Some (m_analog_message, 2) ->
     let r := run_loop (S fuel) self w in
     outcome r = inl (Raise IndexError) /\
     queued (command_deque self) (final r) = rest /\
     analog_response_table (final r) = analog_response_table w /\
     digital_response_table (final r) = digital_response_table w) /\
  (outcome (run uno_handler (feed 0 [0xe9; 0x7f; 0x01] uno))
     = inl (Raise IndexError) /\
   outcome (run uno_handler (feed 0 [0xF0; 0x21; 25; 0x01; 0x00; 0xF7] uno))
     = inl (Raise IndexError)).
Proof.
  intros Hfree. split; [| split; [| split]];
    [| | | split; vm_compute; reflexivity].
  - intros Hpin r. subst r.
    rewrite analog_message_out_of_range
      by (done || (apply index_of_too_big; exact Hpin)).
    split; reflexivity.
  - intros Hpin r. subst r.
    rewrite encoder_data_out_of_range
      by (done || (apply index_of_too_big; exact Hpin)).
    split; reflexivity.
  - intros fuel rest Hlen Hpin Hq Hd r. subst r.
    rewrite (run_loop_turn _ _ _ _ Hq).
    assert (Hkey : command_key (0xe0 + pin) = (0xe0, [pin])).
    { assert (pin = 0 \/ pin = 1 \/ pin = 2 \/ pin = 3 \/ pin = 4 \/
              pin = 5 \/ pin = 6 \/ pin = 7 \/ pin = 8 \/ pin = 9) as Hc
        by lia.
      repeat (destruct Hc as [-> | Hc]; [reflexivity |]).
      subst pin. reflexivity. }
    assert (Hns : (0xe0 + pin =? START_SYSEX) = false).
    { apply Z.eqb_neq. unfold START_SYSEX. lia. }
    assert (Hcmd : (0x80 <=? 0xe0 + pin) && (0xe0 + pin <=? 0xff) = true).
    { apply andb_true_intro. split; apply Z.leb_le; lia. }
    rewrite Hns, Hcmd, Hkey.
    set (w1 := popped (command_deque self) (lsb :: msb :: rest) w).
    rewrite bind_dispatch_get.
    change (command_dispatch w1) with (command_dispatch w).
    change 0xe0 with ANALOG_MESSAGE. rewrite Hd.
    cbn [entry_method entry_num_args]. rewrite !bind_ret.
    change (length (range 0 2)) with 2%nat. cbn [take_args].
    rewrite bind_bind.
    rewrite (bind_popleft _ _ _ lsb (msb :: rest))
      by (subst w1; apply queued_popped).
    set (w2 := popped (command_deque self) (msb :: rest) w1).
    rewrite bind_bind.
    rewrite (bind_popleft _ _ _ msb rest)
      by (subst w2; apply queued_popped).
    set (w3 := popped (command_deque self) rest w2).
    rewrite bind_ret. cbn [app invoke].
    assert (Hrun : analog_message self [pin; lsb; msb] w3 =
                   mkRun [set_held (held w3 ∪ {[data_lock self]}) w3]
                     (set_held (held w3 ∪ {[data_lock self]}) w3)
                     (inl (Raise IndexError))).
    { apply analog_message_out_of_range; [exact Hfree |].
      apply index_of_too_big. exact Hlen. }
    rewrite (bind_abort _ _ _ _ _ _ Hrun).
    cbn [after trace final outcome].
    split; [reflexivity |]. split; [| split; reflexivity].
    subst w3. unfold queued. cbn. rewrite lookup_insert_eq. reflexivity.
Qed.

Lemma pin_beyond_table_raises_witness :
  outcome (run_loop 4 uno_handler
             (set_dispatch {[ANALOG_MESSAGE := (m_analog_message, 2)]}
                (feed 0 [0xe9; 0x7f; 0x01] uno)))
  = inl (Raise IndexError).
Proof.
  refine (proj1 (proj1 (proj2 (proj2
    (pin_beyond_table_raises uno_handler
       (set_dispatch {[ANALOG_MESSAGE := (m_analog_message, 2)]}
          (feed 0 [0xe9; 0x7f; 0x01] uno)) 9 0x7f 0x01 _)))
    3%nat [] _ _ _ _)).
  - vm_compute. discriminate.
  - vm_compute. discriminate.
  - lia.
  - reflexivity.
  - reflexivity.
Defined.

(** C9. The tables are attributes of the class and [__init__] appends to
    them: constructing an instance makes each table longer by its pin
    count, whatever it held before.  A second Uno in the same process is
    left with 40 digital and 12 analog entries for its 20 and 6 pins. *)
Theorem init_appends_to_shared_tables :
  (forall t q l nd na w,
     let r := __init__ t q l nd na w in
     outcome r = inr (mkHandler t q l nd na) /\
     length (digital_response_table (final r))
       = (length (digital_response_table w) + Z.to_nat nd)%nat /\
     length (analog_response_table (final r))
       = (length (analog_response_table w) + Z.to_nat na)%nat) /\
  (let r1 := __init__ 0 0 0 20 6 class_loaded in
   let r2 := __init__ 1 1 1 20 6 (final r1) in
   outcome r2 = inr (mkHandler 1 1 1 20 6) /\
   length (digital_response_table (final r1)) = 20%nat /\
   length (analog_response_table (final r1)) = 6%nat /\
   length (digital_response_table (final r2)) = 40%nat /\
   length (analog_response_table (final r2)) = 12%nat).
Proof.
  split.
  - intros t q l nd na w r. subst r.
    destruct (init_run t q l nd na w) as (Ho & Hf).
    rewrite Ho, Hf. cbn.
    rewrite !length_app, !length_replicate. auto.
  - vm_compute. auto.
Qed.

(** C2, as the claim has it, fails: the table that
    [get_digital_response_table] returned reads all zeros on port 0 when
    the accessor returns, and all ones once a DIGITAL_MESSAGE has been
    handled after that. *)
Lemma returned_table_follows_later_update :
  exists tbl,
    outcome (get_digital_response_table uno_handler uno) = inr tbl /\
    map value
      (take 8 (deref (final (get_digital_response_table uno_handler uno))
                 tbl))
      = [0; 0; 0; 0; 0; 0; 0; 0] /\
    map value
      (take 8 (deref
                 (final (digital_message uno_handler [0; 0x7f; 0x01]
                           (final (get_digital_response_table uno_handler
                                     uno))))
                 tbl))
      = [1; 1; 1; 1; 1; 1; 1; 1] /\
    deref
      (final (digital_message uno_handler [0; 0x7f; 0x01]
                (final (get_digital_response_table uno_handler uno))))
      tbl
    <> deref (final (get_digital_response_table uno_handler uno)) tbl.
Proof.
  exists DigitalRef. split; [reflexivity |].
  split; [vm_compute; reflexivity |].
  split; [vm_compute; reflexivity |].
  vm_compute. discriminate.
Qed.

(** C2, amended. Each accessor takes the data lock, gives it back and
    returns the table object of the class itself; it waits for ever while
    the lock is held, and it leaves the state exactly as it found it, no
    copy being made.  What the caller reads through the returned table
    follows every later change: a pin written by [digital_message] or by
    [analog_message] reads its new value through it, and after a
    [system_reset] it reads as the freshly reset table. *)
Theorem accessors_return_live_table self w :
  (data_lock self ∉ held w ->
   get_digital_response_table self w
     = mkRun [set_held (held w ∪ {[data_lock self]}) w; w] w
         (inr DigitalRef) /\
   get_analog_response_table self w
     = mkRun [set_held (held w ∪ {[data_lock self]}) w; w] w
         (inr AnalogRef)) /\
  (data_lock self ∈ held w ->
   get_digital_response_table self w = mkRun [] w (inl Block) /\
   get_analog_response_table self w = mkRun [] w (inl Block)) /\
  (data_lock self ∉ held w ->
   forall d a,
     outcome (get_digital_response_table self w) = inr d ->
     outcome (get_analog_response_table self w) = inr a ->
     (forall p lsb msb i e,
        0 <= p ->
        0 <= i < 8 ->
        digital_response_table w !! Z.to_nat (p * 8 + i) = Some e ->
        getitem
          (deref
             (final (digital_message self [p; lsb; msb]
                       (final (get_digital_response_table self w))))
             d)
          (p * 8 + i)
        = Some (Entry (mode e)
                  (Z.land (Z.shiftr (Z.shiftl msb 7 + lsb) i) 1))) /\
     (forall k lsb msb e,
        0 <= k ->
        analog_response_table w !! Z.to_nat k = Some e ->
        getitem
          (deref
             (final (analog_message self [k; lsb; msb]
                       (final (get_analog_response_table self w))))
             a)
          k
        = Some (Entry (mode e) (Z.shiftl msb 7 + lsb))) /\
     deref
       (final (system_reset self (final (get_digital_response_table self w))))
       d
     = replicate (Z.to_nat (number_digital_pins self)) (Entry INPUT 0) /\
     deref
       (final (system_reset self (final (get_analog_response_table self w))))
       a
     = replicate (Z.to_nat (number_analog_pins self)) (Entry INPUT 0)).
Proof.
  assert (Hfree_run :
    data_lock self ∉ held w ->
    get_digital_response_table self w
      = mkRun [set_held (held w ∪ {[data_lock self]}) w; w] w
          (inr DigitalRef) /\
    get_analog_response_table self w
      = mkRun [set_held (held w ∪ {[data_lock self]}) w; w] w
          (inr AnalogRef)).
  { intros Hfree.
    assert (Hw : set_held
                   (held (set_held (held w ∪ {[data_lock self]}) w)
                      ∖ {[data_lock self]})
                   (set_held (held w ∪ {[data_lock self]}) w) = w).
    { destruct w; cbn in *. rewrite lock_round_trip by done. reflexivity. }
    split.
    - unfold get_digital_response_table.
      rewrite bind_acquire by done. rewrite bind_release.
      unfold after, ret; cbn [trace final outcome]. rewrite Hw. reflexivity.
    - unfold get_analog_response_table.
      rewrite bind_acquire by done. rewrite bind_release.
      unfold after, ret; cbn [trace final outcome]. rewrite Hw.
      reflexivity. }
  split; [exact Hfree_run |]. split.
  - intros Hheld.
    unfold get_digital_response_table, get_analog_response_table, acquire.
    rewrite !bind_bind, !bind_ask.
    rewrite bool_decide_eq_true_2 by exact Hheld. split; reflexivity.
  - intros Hfree d a.
    destruct (Hfree_run Hfree) as [Hd Ha]. rewrite Hd, Ha.
    cbn [outcome final]. intros [= <-] [= <-].
    split; [| split; [| split]].
    + intros p lsb msb i e Hp Hi He.
      rewrite digital_message_unfold.
      destruct (digital_message_loop_final self 8 (p * 8)
                  (Z.shiftl msb 7 + lsb) w Hfree ltac:(lia))
        as (Hdig & _ & _).
      apply lookup_lt_Some in He as Hlt.
      cbn [deref]. rewrite Hdig, getitem_in_range by lia.
      rewrite port_written_lookup, He. cbn [fmap option_fmap option_map].
      replace (Z.of_nat (Z.to_nat (p * 8 + i)) - p * 8) with i by lia.
      rewrite (proj2 (Z.leb_le 0 i)) by lia.
      rewrite (proj2 (Z.ltb_lt i _)) by lia. reflexivity.
    + intros k lsb msb e Hk He.
      assert (Hin : index_of (length (analog_response_table w)) k
                    = Some (Z.to_nat k)).
      { apply index_of_in_range. apply lookup_lt_Some in He. lia. }
      rewrite (analog_message_run _ _ _ _ _ _ _ Hfree Hin).
      cbn [final]. rewrite deref_stored. cbn [deref].
      rewrite getitem_in_range by lia.
      rewrite list_lookup_alter_eq, He. reflexivity.
    + destruct (system_reset_run self w Hfree) as (mid & _ & Hrun).
      rewrite Hrun. reflexivity.
    + destruct (system_reset_run self w Hfree) as (mid & _ & Hrun).
      rewrite Hrun. reflexivity.
Qed.

Lemma accessors_return_live_table_witness :
  get_digital_response_table uno_handler uno
    = mkRun [set_held (held uno ∪ {[data_lock uno_handler]}) uno; uno] uno
        (inr DigitalRef) /\
  get_analog_response_table uno_handler uno
    = mkRun [set_held (held uno ∪ {[data_lock uno_handler]}) uno; uno] uno
        (inr AnalogRef).
Proof.
  refine (proj1 (accessors_return_live_table uno_handler uno) _).
  vm_compute. discriminate.
Defined.

(** C8, as the claim has it, fails: with a name portion of three bytes the
    third, unpaired byte is not ignored, it gives the second character of
    the name; the same holds for what [_string_data] prints. *)
Lemma trailing_byte_gives_a_character :
  firmata_firmware
    (final (report_firmware uno_handler [1; 2; 0x41; 0; 0x42] uno))
    = [PInt 1; PInt 2; PStr "AB"] /\
  console (final (_string_data uno_handler [0x41; 0; 0x42] uno))
    = [OutStr "_string_data:"; OutList ["A"%char; "B"%char]].
Proof. split; vm_compute; reflexivity. Qed.

(** C8, amended. For a payload of odd length, all bytes in 0..255, the
    characters are those of the bytes at even offsets: one for each pair
    and a last one for the single trailing byte.  The message is handled
    to the end: [report_firmware] appends major, minor and that name to
    [firmata_firmware], [_string_data] prints those characters. *)
Theorem odd_payload_last_byte_is_a_character self w p x :
  Nat.Even (length p) ->
  Forall is_byte (p ++ [x]) ->
  let chars := map (fun i => ascii_of_N (Z.to_N i)) (every_other p)
               ++ [ascii_of_N (Z.to_N x)] in
  (2 * length chars = length (p ++ [x]) + 1)%nat /\
  (forall major minor,
     let r := report_firmware self (major :: minor :: p ++ [x]) w in
     outcome r = inr tt /\
     firmata_firmware (final r)
       = firmata_firmware w
         ++ [PInt major; PInt minor; PStr (string_of_list_ascii chars)]) /\
  (let r := _string_data self (p ++ [x]) w in
   outcome r = inr tt /\
   console (final r)
     = console w ++ [OutStr "_string_data:"; OutList chars]).
Proof.
  intros Hev Hbytes chars.
  assert (Hchars : map (fun i => ascii_of_N (Z.to_N i))
                     (every_other (p ++ [x])) = chars).
  { rewrite every_other_odd by exact Hev. rewrite map_app. reflexivity. }
  pose proof (Forall_every_other _ _ Hbytes) as Heo.
  split; [| split].
  - subst chars. rewrite !length_app, length_map. cbn [length].
    pose proof (every_other_even_length p Hev). lia.
  - intros major minor r. subst r. unfold report_firmware.
    rewrite item_0, bind_ret, bind_act, item_1, bind_ret, bind_act.
    change (drop 2 (major :: minor :: p ++ [x])) with (p ++ [x]).
    cbn zeta. rewrite bind_chr_each by exact Heo. rewrite Hchars.
    unfold act, after; cbn [trace final outcome].
    split; [reflexivity |]. cbn. rewrite <- !app_assoc. reflexivity.
  - intros r. subst r. unfold _string_data.
    rewrite bind_act, bind_chr_each by exact Heo. rewrite Hchars.
    unfold act, after; cbn [trace final outcome].
    split; [reflexivity |]. cbn. rewrite <- !app_assoc. reflexivity.
Qed.

Lemma odd_payload_last_byte_is_a_character_witness :
  firmata_firmware
    (final (report_firmware uno_handler (1 :: 2 :: [0x41; 0] ++ [0x42]) uno))
  = firmata_firmware uno ++ [PInt 1; PInt 2; PStr "AB"].
Proof.
  refine (proj2 (proj1 (proj2
    (odd_payload_last_byte_is_a_character uno_handler uno [0x41; 0] 0x42
       _ _)) 1 2)).
  - exists 1%nat. reflexivity.
  - repeat constructor; unfold is_byte; lia.
Defined.

(** C1 on an Uno: a sysex message with the unknown code 0x55 ends the
    receive loop with [TypeError]; its remaining bytes and the valid
    DIGITAL_MESSAGE queued behind it are never read, and port 0 keeps its
    zeros, where the same DIGITAL_MESSAGE alone sets it to ones.  The
    unknown command byte 0xFF does the same. *)
Lemma unknown_command_kills_decoder :
  (outcome (run uno_handler
              (feed 0 [0xF0; 0x55; 0x01; 0xF7; 0x90; 0x7f; 0x01] uno))
     = inl (Raise TypeError) /\
   queued 0 (final (run uno_handler
                      (feed 0 [0xF0; 0x55; 0x01; 0xF7; 0x90; 0x7f; 0x01]
                         uno)))
     = [0x01; 0xF7; 0x90; 0x7f; 0x01] /\
   digital_response_table
     (final (run uno_handler
               (feed 0 [0xF0; 0x55; 0x01; 0xF7; 0x90; 0x7f; 0x01] uno)))
     = digital_response_table uno) /\
  (outcome (run uno_handler (feed 0 [0xFF; 0x90; 0x7f; 0x01] uno))
     = inl (Raise TypeError) /\
   queued 0 (final (run uno_handler (feed 0 [0xFF; 0x90; 0x7f; 0x01] uno)))
     = [0x90; 0x7f; 0x01] /\
   digital_response_table
     (final (run uno_handler (feed 0 [0xFF; 0x90; 0x7f; 0x01] uno)))
     = digital_response_table uno) /\
  (outcome (run uno_handler (feed 0 [0x90; 0x7f; 0x01] uno)) = inl Block /\
   queued 0 (final (run uno_handler (feed 0 [0x90; 0x7f; 0x01] uno))) = [] /\
   map value
     (take 8 (digital_response_table
                (final (run uno_handler (feed 0 [0x90; 0x7f; 0x01] uno)))))
     = [1; 1; 1; 1; 1; 1; 1; 1] /\
   map value (take 8 (digital_response_table uno))
     = [0; 0; 0; 0; 0; 0; 0; 0]).
Proof. vm_compute. repeat split. Qed.

(** C1. The code does not keep what the claim asks of it, nor its own
    word of a loop that runs for ever.  When the receive loop comes to a
    message whose command code has no entry in the dispatch table, the
    lookup gives [None] and taking the method out of it raises
    [TypeError]: the loop ends there.  The message is not discarded, the
    bytes behind the command code stay in the deque unread, and the tables
    stay as they are. *)
Theorem unknown_command_ends_receive_loop self w fuel :
  (forall c rest,
     queued (command_deque self) w = START_SYSEX :: c :: rest ->
     command_dispatch w !! c = None ->
     let r := run_loop (S fuel) self w in
     outcome r = inl (Raise TypeError) /\
     queued (command_deque self) (final r) = rest /\
     digital_response_table (final r) = digital_response_table w /\
     analog_response_table (final r) = analog_response_table w) /\
  (forall b rest,
     queued (command_deque self) w = b :: rest ->
     0x80 <= b <= 0xff ->
     b <> START_SYSEX ->
     command_dispatch w !! (command_key b).1 = None ->
     let r := run_loop (S fuel) self w in
     outcome r = inl (Raise TypeError) /\
     queued (command_deque self) (final r) = rest /\
     digital_response_table (final r) = digital_response_table w /\
     analog_response_table (final r) = analog_response_table w).
Proof.
  split.
  - intros c rest Hq Hc r. subst r.
    rewrite (run_loop_turn _ _ _ _ Hq). rewrite Z.eqb_refl.
    set (w1 := popped (command_deque self) (c :: rest) w).
    rewrite (bind_popleft _ _ _ c rest) by (subst w1; apply queued_popped).
    set (w2 := popped (command_deque self) rest w1).
    rewrite bind_dispatch_get.
    change (command_dispatch w2) with (command_dispatch w). rewrite Hc.
    cbn [entry_method]. rewrite bind_raise.
    cbn [after trace final outcome].
    split; [reflexivity |]. split; [| split; reflexivity].
    subst w2. apply queued_popped.
  - intros b rest Hq Hb Hns Hc r. subst r.
    rewrite (run_loop_turn _ _ _ _ Hq).
    rewrite (proj2 (Z.eqb_neq b START_SYSEX)) by exact Hns.
    assert (Hcmd : (0x80 <=? b) && (b <=? 0xff) = true).
    { apply andb_true_intro. split; apply Z.leb_le; lia. }
    rewrite Hcmd.
    set (w1 := popped (command_deque self) rest w).
    destruct (command_key b) as [key command_data] eqn:Hkey.
    cbn [fst] in Hc.
    rewrite bind_dispatch_get.
    change (command_dispatch w1) with (command_dispatch w). rewrite Hc.
    cbn [entry_method]. rewrite bind_raise.
    cbn [after trace final outcome].
    split; [reflexivity |]. split; [| split; reflexivity].
    subst w1. apply queued_popped.
Qed.

Lemma unknown_command_ends_receive_loop_witness :
  outcome
    (run_loop 8 uno_handler
       (started (feed 0 [0xF0; 0x55; 0x01; 0xF7; 0x90; 0x7f; 0x01] uno)))
    = inl (Raise TypeError) /\
  queued 0
    (final
       (run_loop 8 uno_handler
          (started (feed 0 [0xF0; 0x55; 0x01; 0xF7; 0x90; 0x7f; 0x01] uno))))
    = [0x01; 0xF7; 0x90; 0x7f; 0x01].
Proof.
  refine (let H := proj1
            (unknown_command_ends_receive_loop uno_handler
               (started
                  (feed 0 [0xF0; 0x55; 0x01; 0xF7; 0x90; 0x7f; 0x01] uno))
               7)
            0x55 [0x01; 0xF7; 0x90; 0x7f; 0x01] _ _ in
          conj (proj1 H) (proj1 (proj2 H))).
  - reflexivity.
  - vm_compute. reflexivity.
Defined.

(** * Further properties of the class *)

(** ** Ends of runs *)

Lemma same_end_refl {A} (r : Run A) : same_end r r.
Proof. split; reflexivity. Qed.

Lemma same_end_trans {A} (r1 r2 r3 : Run A) :
  same_end r1 r2 -> same_end r2 r3 -> same_end r1 r3.
Proof. intros [H1 H2] [H3 H4]. split; congruence. Qed.

Lemma same_end_after {A} w1 (r : Run A) : same_end (after w1 r) r.
Proof. split; reflexivity. Qed.

Lemma same_end_bind {A B} (m m' : M A) (k : A -> M B) w w' :
  same_end (m w) (m' w') -> same_end (bind m k w) (bind m' k w').
Proof.
  intros [Ho Hf]. unfold bind. rewrite Ho, Hf.
  destruct (outcome (m' w')); split; reflexivity.
Qed.

Lemma popped_popped q rest rest' w :
  popped q rest (popped q rest' w) = popped q rest w.
Proof. unfold popped. cbn. rewrite insert_insert_eq. reflexivity. Qed.

Lemma run_start self w :
  same_end (run self w)
    (run_loop (S (length (queued (command_deque self) w))) self (started w)).
Proof.
  unfold run, dispatch_update. rewrite !bind_act, bind_ask.
  split; reflexivity.
Qed.

Lemma dispatch_table_other d key :
  key <> REPORT_VERSION -> key <> REPORT_FIRMWARE ->
  key <> ANALOG_MESSAGE -> key <> DIGITAL_MESSAGE ->
  key <> ENCODER_DATA -> key <> STRING_DATA ->
  dispatch_table d !! key = d !! key.
Proof.
  intros. unfold dispatch_table.
  rewrite !lookup_insert_ne by congruence. reflexivity.
Qed.

(** ** Sending *)

Lemma writes_run t (cs : list ascii) : forall w,
  outcome (for_each cs (write t) w) = inr tt /\
  final (for_each cs (write t) w)
    = set_wire (wire w ++ map (fun c => (t, c)) cs) w.
Proof.
  induction cs as [| c cs IH]; intros w.
  - cbn. rewrite app_nil_r. destruct w; split; reflexivity.
  - cbn [for_each]. unfold write at 1 3. rewrite !bind_act.
    cbn [after final outcome].
    destruct (IH (set_wire (wire w ++ [(t, c)]) w)) as [Ho Hf].
    rewrite Ho, Hf. split; [reflexivity |].
    cbn. rewrite <- app_assoc. reflexivity.
Qed.

Lemma chr_not_byte i : ~ is_byte i -> chr i = inl (chr_error i).
Proof.
  intros H. unfold chr, is_byte in *.
  destruct (Z.leb_spec 0 i); [| reflexivity].
  destruct (Z.ltb_spec i 256); [lia | reflexivity].
Qed.

Lemma chr_error_cases i :
  chr_error i = ValueError \/ chr_error i = OverflowError.
Proof.
  unfold chr_error.
  destruct ((- 2 ^ 63 <=? i) && (i <? 2 ^ 63)); [left | right]; reflexivity.
Qed.

Lemma chr_error_small i : - 2 ^ 31 <= i < 2 ^ 31 -> chr_error i = ValueError.
Proof.
  intros H. unfold chr_error.
  rewrite (proj2 (Z.leb_le _ _)), (proj2 (Z.ltb_lt _ _)) by lia.
  reflexivity.
Qed.

Lemma is_byte_dec i : {is_byte i} + {~ is_byte i}.
Proof.
  unfold is_byte.
  destruct (Z_le_dec 0 i); [| right; lia].
  destruct (Z_lt_dec i 256); [left; lia | right; lia].
Qed.

(** The first byte outside 0..255 stops the conversion with its own
    exception. *)
Lemma chr_each_bad l w :
  Exists (fun i => ~ is_byte i) l ->
  exists i,
    i ∈ l /\ ~ is_byte i /\
    chr_each l w = mkRun [] w (inl (Raise (chr_error i))).
Proof.
  induction l as [| i l IH]; intros H; [inversion H |].
  cbn [chr_each]. destruct (is_byte_dec i) as [Hi | Hi].
  - inversion H as [? ? Hbad | ? ? Hbad]; subst; [contradiction |].
    destruct (IH Hbad) as (j & Hj & Hjb & Hrun).
    exists j. split; [apply elem_of_cons; right; exact Hj |].
    split; [exact Hjb |].
    unfold chr_. rewrite (chr_byte i Hi), bind_ret.
    apply bind_abort. exact Hrun.
  - exists i. split; [apply elem_of_cons; left; reflexivity |].
    split; [exact Hi |].
    unfold chr_. rewrite (chr_not_byte i Hi). reflexivity.
Qed.

(** X1. [send_sysex] with a command and data bytes in 0..255 writes to the
    transport of the instance, in this order and one character at a time,
    START_SYSEX, the command, the data bytes and END_SYSEX; it returns
    normally and changes nothing else. *)
Theorem send_sysex_frames_message self w sysex_command sysex_data :
  is_byte sysex_command ->
  Forall is_byte sysex_data ->
  let r := send_sysex self sysex_command sysex_data w in
  outcome r = inr tt /\
  final r =
    set_wire
      (wire w ++
       sent_on (transport self)
         (START_SYSEX :: sysex_command :: sysex_data ++ [END_SYSEX])) w.
Proof.
  intros Hc Hd r. subst r.
  assert (Hrun : send_sysex self sysex_command sysex_data w
                 = for_each
                     (chars_of
                        (START_SYSEX :: sysex_command
                         :: sysex_data ++ [END_SYSEX]))
                     (write (transport self)) w).
  { unfold send_sysex.
    change (chr_ START_SYSEX) with (@ret ascii (ascii_of_N 0xF0)).
    rewrite bind_ret. unfold chr_ at 1. rewrite (chr_byte _ Hc), bind_ret.
    rewrite bind_chr_each by exact Hd.
    change (chr_ END_SYSEX) with (@ret ascii (ascii_of_N 0xF7)).
    rewrite bind_ret. unfold chars_of. cbn [map]. rewrite map_app.
    reflexivity. }
  rewrite Hrun. apply writes_run.
Qed.

Lemma send_sysex_frames_message_witness :
  wire (final (send_sysex uno_handler SERVO_CONFIG [9; 0x20; 0x04] uno))
  = sent_on 0 [0xF0; 0x70; 9; 0x20; 0x04; 0xF7].
Proof.
  refine (f_equal wire (proj2 (send_sysex_frames_message uno_handler uno
                                 SERVO_CONFIG [9; 0x20; 0x04] _ _))).
  - unfold is_byte, SERVO_CONFIG. lia.
  - repeat constructor; unfold is_byte; lia.
Defined.

(** X2. [send_sysex] builds the whole message before it writes: when the
    command or any data byte is outside 0..255, [chr] raises, [ValueError]
    or, for an integer that does not fit a C long, [OverflowError], and
    not a single character has gone out, the state is untouched.  With
    all values within 32 bits the exception is [ValueError]. *)
Theorem send_sysex_bad_byte_writes_nothing self w sysex_command sysex_data :
  ~ is_byte sysex_command \/ Exists (fun i => ~ is_byte i) sysex_data ->
  exists e,
    (e = ValueError \/ e = OverflowError) /\
    send_sysex self sysex_command sysex_data w = mkRun [] w (inl (Raise e)) /\
    (Forall (fun i => - 2 ^ 31 <= i < 2 ^ 31) (sysex_command :: sysex_data) ->
     e = ValueError).
Proof.
  intros Hbad.
  assert (Hstart : forall k : ascii -> M unit,
             bind (chr_ START_SYSEX) k w = k (ascii_of_N 0xF0) w).
  { intros k. change (chr_ START_SYSEX) with (@ret ascii (ascii_of_N 0xF0)).
    apply bind_ret. }
  destruct (is_byte_dec sysex_command) as [Hc | Hc].
  - destruct Hbad as [Hbad | Hbad]; [contradiction |].
    destruct (chr_each_bad sysex_data w Hbad) as (i & Hi & Hib & Hrun).
    exists (chr_error i). split; [apply chr_error_cases |]. split.
    + unfold send_sysex. rewrite Hstart.
      unfold chr_ at 1. rewrite (chr_byte _ Hc), bind_ret.
      apply bind_abort. exact Hrun.
    + intros Hsmall. apply chr_error_small.
      rewrite Forall_forall in Hsmall. apply Hsmall.
      apply elem_of_cons. right. exact Hi.
  - exists (chr_error sysex_command). split; [apply chr_error_cases |].
    split.
    + unfold send_sysex. rewrite Hstart.
      unfold chr_ at 1. rewrite (chr_not_byte _ Hc). reflexivity.
    + intros Hsmall. apply chr_error_small.
      inversion Hsmall. assumption.
Qed.

Lemma send_sysex_bad_byte_writes_nothing_witness :
  exists e,
    (e = ValueError \/ e = OverflowError) /\
    send_sysex uno_handler SAMPLING_INTERVAL [19; 300] uno
      = mkRun [] uno (inl (Raise e)) /\
    (Forall (fun i => - 2 ^ 31 <= i < 2 ^ 31) [SAMPLING_INTERVAL; 19; 300] ->
     e = ValueError).
Proof.
  refine (send_sysex_bad_byte_writes_nothing uno_handler uno
            SAMPLING_INTERVAL [19; 300] _).
  right. apply Exists_cons_tl. apply Exists_cons_hd. unfold is_byte. lia.
Defined.

(** X3. [send_command] writes the characters of its bytes to the transport
    in order, unframed, when they are all in 0..255; otherwise [chr]
    raises, [ValueError] or, for an integer that does not fit a C long,
    [OverflowError], before anything is written.  With all values within
    32 bits the exception is [ValueError]. *)
Theorem send_command_writes_bytes self w command :
  (Forall is_byte command ->
   outcome (send_command self command w) = inr tt /\
   final (send_command self command w)
     = set_wire (wire w ++ sent_on (transport self) command) w) /\
  (Exists (fun i => ~ is_byte i) command ->
   exists e,
     (e = ValueError \/ e = OverflowError) /\
     send_command self command w = mkRun [] w (inl (Raise e)) /\
     (Forall (fun i => - 2 ^ 31 <= i < 2 ^ 31) command -> e = ValueError)).
Proof.
  split.
  - intros Hb. unfold send_command. rewrite bind_chr_each by exact Hb.
    apply writes_run.
  - intros Hbad.
    destruct (chr_each_bad command w Hbad) as (i & Hi & Hib & Hrun).
    exists (chr_error i). split; [apply chr_error_cases |]. split.
    + unfold send_command. apply bind_abort. exact Hrun.
    + intros Hsmall. apply chr_error_small.
      rewrite Forall_forall in Hsmall. apply Hsmall. exact Hi.
Qed.

Lemma send_command_writes_bytes_witness :
  wire (final (send_command uno_handler [SET_PIN_MODE; 13; OUTPUT] uno))
    = sent_on 0 [0xF4; 13; 1] /\
  exists e,
    (e = ValueError \/ e = OverflowError) /\
    send_command uno_handler [SET_PIN_MODE; 300] uno
      = mkRun [] uno (inl (Raise e)) /\
    (Forall (fun i => - 2 ^ 31 <= i < 2 ^ 31) [SET_PIN_MODE; 300] ->
     e = ValueError).
Proof.
  split.
  - refine (f_equal wire (proj2 (proj1
      (send_command_writes_bytes uno_handler uno
         [SET_PIN_MODE; 13; OUTPUT]) _))).
    repeat constructor; unfold is_byte, SET_PIN_MODE, OUTPUT; lia.
  - refine (proj2 (send_command_writes_bytes uno_handler uno
                     [SET_PIN_MODE; 300]) _).
    apply Exists_cons_tl. apply Exists_cons_hd. unfold is_byte. lia.
Defined.

(** ** Handlers *)

Lemma every_other_pairs (pairs : list (Z * Z)) :
  every_other (flat_map (fun p => [p.1; p.2]) pairs) = map fst pairs.
Proof.
  induction pairs as [| p pairs IH]; [reflexivity |].
  cbn [flat_map app every_other map]. rewrite IH. reflexivity.
Qed.

(** X4. A REPORT_FIRMWARE payload made of major, minor and then two bytes
    per character decodes to that name whatever the second byte of each
    pair is: [report_firmware] appends major, minor and the string of the
    first bytes to [firmata_firmware], and [_string_data] prints the
    characters of the first bytes. *)
Theorem text_payload_decodes_first_bytes self w (pairs : list (Z * Z)) :
  Forall (fun p => is_byte p.1) pairs ->
  let payload := flat_map (fun p => [p.1; p.2]) pairs in
  (forall major minor,
     let r := report_firmware self (major :: minor :: payload) w in
     outcome r = inr tt /\
     firmata_firmware (final r)
       = firmata_firmware w
         ++ [PInt major; PInt minor;
             PStr (string_of_list_ascii (chars_of (map fst pairs)))]) /\
  (let r := _string_data self payload w in
   outcome r = inr tt /\
   console (final r)
     = console w
       ++ [OutStr "_string_data:"; OutList (chars_of (map fst pairs))]).
Proof.
  intros Hb payload.
  assert (Heo : every_other payload = map fst pairs)
    by apply every_other_pairs.
  assert (Hbytes : Forall is_byte (every_other payload)).
  { rewrite Heo. apply Forall_map. exact Hb. }
  split.
  - intros major minor r. subst r. unfold report_firmware.
    rewrite item_0, bind_ret, bind_act, item_1, bind_ret, bind_act.
    change (drop 2 (major :: minor :: payload)) with payload.
    cbn zeta. rewrite bind_chr_each by exact Hbytes. rewrite Heo.
    unfold act, after; cbn [trace final outcome].
    split; [reflexivity |]. cbn. rewrite <- !app_assoc. reflexivity.
  - intros r. subst r. unfold _string_data.
    rewrite bind_act, bind_chr_each by exact Hbytes. rewrite Heo.
    unfold act, after; cbn [trace final outcome].
    split; [reflexivity |]. cbn. rewrite <- !app_assoc. reflexivity.
Qed.

Lemma text_payload_decodes_first_bytes_witness :
  firmata_firmware
    (final (report_firmware uno_handler
              (2 :: 3 :: flat_map (fun p => [p.1; p.2])
                           [(0x41, 0); (0x42, 0); (0x43, 0)]) uno))
  = firmata_firmware uno ++ [PInt 2; PInt 3; PStr "ABC"].
Proof.
  refine (proj2 (proj1
    (text_payload_decodes_first_bytes uno_handler uno
       [(0x41, 0); (0x42, 0); (0x43, 0)] _) 2 3)).
  repeat constructor; unfold is_byte; cbn; lia.
Defined.

(** X5. The number of bytes the dispatch table lists for a sysex handler
    is not checked against the payload.  [encoder_data] on fewer than
    three bytes raises [IndexError] before it takes the lock, with nothing
    changed; [report_firmware] on an empty payload raises it with nothing
    changed, and on a single byte after having appended that byte as the
    major version. *)
Theorem short_sysex_payload_raises self w :
  (forall data,
     (length data < 3)%nat ->
     encoder_data self data w = mkRun [] w (inl (Raise IndexError))) /\
  report_firmware self [] w = mkRun [] w (inl (Raise IndexError)) /\
  (forall major,
     outcome (report_firmware self [major] w) = inl (Raise IndexError) /\
     final (report_firmware self [major] w)
       = set_firmware (firmata_firmware w ++ [PInt major]) w).
Proof.
  split; [| split].
  - intros data Hlen. unfold encoder_data.
    destruct data as [| a [| b [| c data]]]; try reflexivity.
    cbn in Hlen. lia.
  - reflexivity.
  - intros major. split; reflexivity.
Qed.

Lemma short_sysex_payload_raises_witness :
  encoder_data uno_handler [3; 1] uno = mkRun [] uno (inl (Raise IndexError)).
Proof.
  refine (proj1 (short_sysex_payload_raises uno_handler uno) [3; 1] _).
  cbn. lia.
Defined.

(** X6. For two 7-bit data bytes the value [encoder_data] stores lies
    between -8191 and 8192 and is congruent to the raw 14-bit reading
    modulo 16384; the raw reading 8192 itself is stored as +8192. *)
Theorem encoder_data_value_range self w pin lsb msb e :
  data_lock self ∉ held w ->
  0 <= pin ->
  digital_response_table w !! Z.to_nat pin = Some e ->
  0 <= lsb < 128 ->
  0 <= msb < 128 ->
  exists val,
    getitem
      (digital_response_table (final (encoder_data self [pin; lsb; msb] w)))
      pin = Some (Entry (mode e) val) /\
    -8191 <= val <= 8192 /\
    val mod 16384 = Z.shiftl msb 7 + lsb /\
    (Z.shiftl msb 7 + lsb = 8192 -> val = 8192).
Proof.
  intros Hfree Hpin He Hl Hm.
  assert (Hin : index_of (length (digital_response_table w)) pin
                = Some (Z.to_nat pin)).
  { apply index_of_in_range. apply lookup_lt_Some in He. lia. }
  rewrite (encoder_data_run _ _ _ _ _ _ _ Hfree Hin). cbn [final].
  exists (encoder_value (Z.shiftl msb 7 + lsb)). split.
  - rewrite getitem_in_range by lia.
    rewrite digital_stored_digital, list_lookup_alter_eq, He. reflexivity.
  - rewrite Z.shiftl_mul_pow2 by lia. change (2 ^ 7) with 128.
    set (raw := msb * 128 + lsb).
    assert (0 <= raw <= 16383) by (subst raw; lia).
    unfold encoder_value. destruct (Z.ltb_spec 8192 raw).
    + split; [lia |]. split; [| lia].
      replace (raw - 16384) with (raw + (-1) * 16384) by lia.
      rewrite Z.mod_add by lia. apply Z.mod_small. lia.
    + split; [lia |]. split; [apply Z.mod_small; lia | trivial].
Qed.

Lemma encoder_data_value_range_witness :
  exists val,
    getitem
      (digital_response_table
         (final (encoder_data uno_handler [3; 0x7f; 0x7f] uno))) 3
      = Some (Entry (mode (Entry INPUT 0)) val) /\
    -8191 <= val <= 8192 /\
    val mod 16384 = Z.shiftl 0x7f 7 + 0x7f /\
    (Z.shiftl 0x7f 7 + 0x7f = 8192 -> val = 8192).
Proof.
  refine (encoder_data_value_range uno_handler uno 3 0x7f 0x7f
            (Entry INPUT 0) _ _ _ _ _).
  - vm_compute. discriminate.
  - lia.
  - reflexivity.
  - lia.
  - lia.
Defined.

Lemma map_mode_alter v n (t : list entry) :
  map mode (alter (fun e => Entry (mode e) v) n t) = map mode t.
Proof.
  revert n. induction t as [| e t IH]; intros [| n]; cbn;
    [reflexivity | reflexivity | reflexivity |].
  f_equal. apply IH.
Qed.

Lemma map_mode_port_written start k pd t :
  map mode (port_written start k pd t) = map mode t.
Proof.
  apply list_eq. intros m. rewrite !list_lookup_fmap, port_written_lookup.
  destruct (t !! m) as [e |]; cbn; [| reflexivity].
  destruct ((0 <=? Z.of_nat m - start) && (Z.of_nat m - start <? k));
    reflexivity.
Qed.

(** X7. Whatever its port and however it ends, [digital_message] changes
    no pin outside the eight of the port, no pin mode, not the length of
    the digital table and nothing of the analog table. *)
Theorem digital_message_touches_only_its_port self w p lsb msb :
  data_lock self ∉ held w ->
  0 <= p ->
  let r := digital_message self [p; lsb; msb] w in
  (forall j : nat,
     Z.of_nat j < p * 8 \/ p * 8 + 8 <= Z.of_nat j ->
     digital_response_table (final r) !! j = digital_response_table w !! j) /\
  map mode (digital_response_table (final r))
    = map mode (digital_response_table w) /\
  length (digital_response_table (final r))
    = length (digital_response_table w) /\
  analog_response_table (final r) = analog_response_table w.
Proof.
  intros Hfree Hp r. subst r. rewrite digital_message_unfold.
  destruct (digital_message_loop_final self 8 (p * 8)
              (Z.shiftl msb 7 + lsb) w Hfree ltac:(lia)) as (Hd & Ha & _).
  rewrite Hd, Ha. split; [| split; [| split]].
  - intros j Hj. rewrite port_written_lookup.
    destruct (digital_response_table w !! j) as [e |]; cbn; [| reflexivity].
    destruct (Z.leb_spec 0 (Z.of_nat j - p * 8)); cbn; [| reflexivity].
    rewrite (proj2 (Z.ltb_ge _ _)) by lia. reflexivity.
  - apply map_mode_port_written.
  - apply port_written_length.
  - reflexivity.
Qed.

Lemma digital_message_touches_only_its_port_witness :
  analog_response_table (final (digital_message uno_handler [2; 0x7f; 1] uno))
  = analog_response_table uno.
Proof.
  refine (proj2 (proj2 (proj2
    (digital_message_touches_only_its_port uno_handler uno 2 0x7f 1 _ _)))).
  - vm_compute. discriminate.
  - lia.
Defined.

(** X8. Constructed while the tables of the class are still empty, an
    instance finds them filled with one [[INPUT, 0]] per pin: their
    lengths are its pin counts.  The constructor never raises and changes
    nothing but the two tables. *)
Theorem first_instance_tables t q l nd na w :
  digital_response_table w = [] ->
  analog_response_table w = [] ->
  0 <= nd ->
  0 <= na ->
  let r := __init__ t q l nd na w in
  outcome r = inr (mkHandler t q l nd na) /\
  final r =
    set_table AnalogRef (replicate (Z.to_nat na) (Entry INPUT 0))
      (set_table DigitalRef (replicate (Z.to_nat nd) (Entry INPUT 0)) w) /\
  Z.of_nat (length (digital_response_table (final r))) = nd /\
  Z.of_nat (length (analog_response_table (final r))) = na.
Proof.
  intros Hd Ha Hnd Hna r. subst r.
  destruct (init_run t q l nd na w) as (Ho & Hf).
  rewrite Ho, Hf, Hd, Ha. cbn [app].
  split; [reflexivity |]. split; [reflexivity |].
  cbn. rewrite !length_replicate. lia.
Qed.

Lemma first_instance_tables_witness :
  Z.of_nat (length (digital_response_table
                      (final (__init__ 0 0 0 20 6 class_loaded)))) = 20.
Proof.
  refine (proj1 (proj2 (proj2
    (first_instance_tables 0 0 0 20 6 class_loaded _ _ _ _)))).
  - reflexivity.
  - reflexivity.
  - lia.
  - lia.
Defined.

Lemma acquire_held {B} l (k : unit -> M B) w :
  l ∈ held w -> bind (acquire l) k w = mkRun [] w (inl Block).
Proof.
  intros Hl. unfold acquire. rewrite bind_bind, bind_ask.
  rewrite bool_decide_eq_true_2 by exact Hl. reflexivity.
Qed.

(** X9. A handler that raises [IndexError] on the pin of its message does
    so between [acquire] and [release]: the lock stays taken for good.
    From the state [analog_message] or [encoder_data] leaves then, both
    accessors wait for the lock for ever, and so does [system_reset], once
    it has written its byte. *)
Theorem lock_kept_after_index_error self w pin lsb msb :
  data_lock self ∉ held w ->
  (Z.of_nat (length (analog_response_table w)) <= pin ->
   let w' := final (analog_message self [pin; lsb; msb] w) in
   data_lock self ∈ held w' /\
   outcome (get_analog_response_table self w') = inl Block /\
   outcome (get_digital_response_table self w') = inl Block /\
   outcome (system_reset self w') = inl Block /\
   wire (final (system_reset self w'))
     = wire w ++ [(transport self, ascii_of_N 255)]) /\
  (Z.of_nat (length (digital_response_table w)) <= pin ->
   let w' := final (encoder_data self [pin; lsb; msb] w) in
   data_lock self ∈ held w' /\
   outcome (get_analog_response_table self w') = inl Block /\
   outcome (get_digital_response_table self w') = inl Block /\
   outcome (system_reset self w') = inl Block).
Proof.
  intros Hfree.
  assert (Hheld : data_lock self
                    ∈ held (set_held (held w ∪ {[data_lock self]}) w)).
  { cbn. apply elem_of_union_r, elem_of_singleton. reflexivity. }
  assert (Hreset : forall w0,
             data_lock self ∈ held w0 ->
             outcome (system_reset self w0) = inl Block /\
             wire (final (system_reset self w0))
               = wire w0 ++ [(transport self, ascii_of_N 255)]).
  { intros w0 Hw0.
    assert (Hrun : system_reset self w0
                   = after
                       (set_wire
                          (wire w0 ++ [(transport self, ascii_of_N 255)]) w0)
                       (mkRun []
                          (set_wire
                             (wire w0 ++ [(transport self, ascii_of_N 255)])
                             w0)
                          (inl Block))).
    { unfold system_reset.
      change (chr_ SYSTEM_RESET) with (@ret ascii (ascii_of_N 255)).
      rewrite bind_ret. unfold write. rewrite bind_act.
      rewrite acquire_held by exact Hw0. reflexivity. }
    rewrite Hrun. split; reflexivity. }
  split.
  - intros Hpin w'. subst w'.
    rewrite analog_message_out_of_range
      by (done || (apply index_of_too_big; exact Hpin)).
    cbn [final]. split; [exact Hheld |].
    unfold get_analog_response_table, get_digital_response_table.
    rewrite !acquire_held by exact Hheld.
    split; [reflexivity |]. split; [reflexivity |].
    apply (Hreset _ Hheld).
  - intros Hpin w'. subst w'.
    rewrite encoder_data_out_of_range
      by (done || (apply index_of_too_big; exact Hpin)).
    cbn [final]. split; [exact Hheld |].
    unfold get_analog_response_table, get_digital_response_table.
    rewrite !acquire_held by exact Hheld.
    split; [reflexivity |]. split; [reflexivity |].
    apply (Hreset _ Hheld).
Qed.

Lemma lock_kept_after_index_error_witness :
  outcome
    (get_analog_response_table uno_handler
       (final (analog_message uno_handler [9; 0x7f; 1] uno)))
  = inl Block.
Proof.
  refine (proj1 (proj2 (proj1
    (lock_kept_after_index_error uno_handler uno 9 0x7f 1 _) _))).
  - vm_compute. discriminate.
  - vm_compute. discriminate.
Defined.

(** ** The receive loop, turn by turn *)

Lemma command_key_digital port :
  0 <= port <= 15 -> command_key (0x90 + port) = (0x90, [port]).
Proof.
  intros H.
  assert (port = 0 \/ port = 1 \/ port = 2 \/ port = 3 \/ port = 4 \/
          port = 5 \/ port = 6 \/ port = 7 \/ port = 8 \/ port = 9 \/
          port = 10 \/ port = 11 \/ port = 12 \/ port = 13 \/ port = 14 \/
          port = 15) as Hc by lia.
  repeat (destruct Hc as [-> | Hc]; [reflexivity |]).
  subst port. reflexivity.
Qed.

Lemma command_key_analog pin :
  0 <= pin <= 9 -> command_key (0xe0 + pin) = (0xe0, [pin]).
Proof.
  intros H.
  assert (pin = 0 \/ pin = 1 \/ pin = 2 \/ pin = 3 \/ pin = 4 \/
          pin = 5 \/ pin = 6 \/ pin = 7 \/ pin = 8 \/ pin = 9) as Hc by lia.
  repeat (destruct Hc as [-> | Hc]; [reflexivity |]).
  subst pin. reflexivity.
Qed.

Lemma command_key_other b :
  ~ (0x90 <= b <= 0x9f) -> ~ (0xe0 <= b <= 0xe9) -> command_key b = (b, []).
Proof.
  intros Hd Ha. unfold command_key.
  destruct (Z.leb_spec 0x90 b), (Z.leb_spec b 0x9f); cbn [andb];
    try lia;
    destruct (Z.leb_spec 0xe0 b), (Z.leb_spec b 0xe9); cbn [andb];
    try lia; reflexivity.
Qed.

Lemma command_byte_test b :
  0x80 <= b <= 0xff -> (0x80 <=? b) && (b <=? 0xff) = true.
Proof. intros H. apply andb_true_intro. split; apply Z.leb_le; lia. Qed.

(** A turn on a command of two data bytes, all three bytes queued. *)
Lemma run_loop_fixed_turn fuel self w b key pre m b1 b2 rest :
  queued (command_deque self) w = b :: b1 :: b2 :: rest ->
  0x80 <= b <= 0xff ->
  b <> START_SYSEX ->
  command_key b = (key, pre) ->
  command_dispatch w !! key = Some (m, 2) ->
  same_end (run_loop (S fuel) self w)
    ((invoke self m (pre ++ [b1; b2]) ;; run_loop fuel self)
       (popped (command_deque self) rest w)).
Proof.
  intros Hq Hb Hns Hkey Hd.
  rewrite (run_loop_turn _ _ _ _ Hq).
  rewrite (proj2 (Z.eqb_neq b START_SYSEX)) by exact Hns.
  rewrite (command_byte_test b Hb), Hkey.
  set (w1 := popped (command_deque self) (b1 :: b2 :: rest) w).
  rewrite bind_dispatch_get.
  change (command_dispatch w1) with (command_dispatch w). rewrite Hd.
  cbn [entry_method entry_num_args]. rewrite !bind_ret.
  change (length (range 0 2)) with 2%nat. cbn [take_args].
  rewrite bind_bind.
  rewrite (bind_popleft _ _ _ b1 (b2 :: rest))
    by (subst w1; apply queued_popped).
  rewrite bind_bind.
  rewrite (bind_popleft _ _ _ b2 rest) by apply queued_popped.
  rewrite bind_ret. subst w1. rewrite !popped_popped.
  rewrite <- app_assoc. cbn [app].
  eapply same_end_trans; [apply same_end_after |].
  eapply same_end_trans; [apply same_end_after |].
  eapply same_end_trans; [apply same_end_after |].
  apply same_end_refl.
Qed.

(** X10. A turn of the receive loop on a complete fixed-length message
    takes its three bytes off the deque, calls the handler and comes round
    again: [digital_message] gets [[port, b1, b2]] for a command byte
    0x90+port, [analog_message] gets [[pin, b1, b2]] for 0xE0+pin with pin
    up to 9, and [report_version] gets [[b1, b2]] for 0xF9. *)
Theorem fixed_length_message_dispatch self w fuel b1 b2 rest :
  (forall port,
     0 <= port <= 15 ->
     queued (command_deque self) w = (0x90 + port) :: b1 :: b2 :: rest ->
     command_dispatch w !! DIGITAL_MESSAGE = Some (m_digital_message, 2) ->
     same_end (run_loop (S fuel) self w)
       ((digital_message self [port; b1; b2] ;; run_loop fuel self)
          (popped (command_deque self) rest w))) /\
  (forall pin,
     0 <= pin <= 9 ->
     queued (command_deque self) w = (0xe0 + pin) :: b1 :: b2 :: rest ->
     command_dispatch w !! ANALOG_MESSAGE = Some (m_analog_message, 2) ->
     same_end (run_loop (S fuel) self w)
       ((analog_message self [pin; b1; b2] ;; run_loop fuel self)
          (popped (command_deque self) rest w))) /\
  (queued (command_deque self) w = REPORT_VERSION :: b1 :: b2 :: rest ->
   command_dispatch w !! REPORT_VERSION = Some (m_report_version, 2) ->
   same_end (run_loop (S fuel) self w)
     ((report_version self [b1; b2] ;; run_loop fuel self)
        (popped (command_deque self) rest w))).
Proof.
  split; [| split].
  - intros port Hport Hq Hd.
    apply (run_loop_fixed_turn fuel self w (0x90 + port) 0x90 [port]
             m_digital_message b1 b2 rest Hq);
      [lia | unfold START_SYSEX; lia | apply command_key_digital; lia
      | exact Hd].
  - intros pin Hpin Hq Hd.
    apply (run_loop_fixed_turn fuel self w (0xe0 + pin) 0xe0 [pin]
             m_analog_message b1 b2 rest Hq);
      [lia | unfold START_SYSEX; lia | apply command_key_analog; lia
      | exact Hd].
  - intros Hq Hd.
    apply (run_loop_fixed_turn fuel self w REPORT_VERSION REPORT_VERSION []
             m_report_version b1 b2 rest Hq);
      [unfold REPORT_VERSION; lia | discriminate | reflexivity | exact Hd].
Qed.

Lemma fixed_length_message_dispatch_witness :
  same_end
    (run_loop 5 uno_handler (started (feed 0 [0x91; 0x55; 0x01; 0x05] uno)))
    ((digital_message uno_handler [1; 0x55; 0x01] ;; run_loop 4 uno_handler)
       (popped 0 [0x05] (started (feed 0 [0x91; 0x55; 0x01; 0x05] uno)))).
Proof.
  refine (proj1 (fixed_length_message_dispatch uno_handler
                   (started (feed 0 [0x91; 0x55; 0x01; 0x05] uno))
                   4 0x55 0x01 [0x05]) 1 _ _ _).
  - lia.
  - reflexivity.
  - reflexivity.
Defined.

Lemma sysex_loop_end self m rest (data : list Z) : forall fuel acc w,
  queued (command_deque self) w = data ++ END_SYSEX :: rest ->
  Forall (fun d => d <> END_SYSEX) data ->
  (length data < fuel)%nat ->
  same_end (sysex_loop fuel self m acc w)
    (invoke self m (acc ++ data) (popped (command_deque self) rest w)).
Proof.
  induction data as [| d data IH]; intros fuel acc w Hq Hne Hfuel.
  - destruct fuel as [| fuel]; [lia |]. cbn [sysex_loop].
    rewrite (bind_popleft _ _ _ END_SYSEX rest) by exact Hq.
    rewrite Z.eqb_refl, app_nil_r. apply same_end_after.
  - destruct fuel as [| fuel]; [cbn in Hfuel; lia |]. cbn [sysex_loop].
    rewrite (bind_popleft _ _ _ d (data ++ END_SYSEX :: rest)) by exact Hq.
    inversion Hne as [| ? ? Hd Hne']. subst.
    rewrite (proj2 (Z.eqb_neq d END_SYSEX)) by exact Hd.
    eapply same_end_trans; [apply same_end_after |].
    eapply same_end_trans.
    + apply IH; [apply queued_popped | exact Hne' | cbn in Hfuel; lia].
    + rewrite popped_popped, <- app_assoc. apply same_end_refl.
Qed.

(** X11. A turn of the receive loop on a complete sysex message, its
    command in the dispatch table, takes the message off the deque and
    calls the handler once with exactly the bytes between the command and
    the first END_SYSEX, however many the table lists for it; then the
    loop comes round again on what follows. *)
Theorem sysex_message_dispatch self w fuel c m n data rest :
  queued (command_deque self) w
    = START_SYSEX :: c :: data ++ END_SYSEX :: rest ->
  Forall (fun d => d <> END_SYSEX) data ->
  command_dispatch w !! c = Some (m, n) ->
  (length data < fuel)%nat ->
  same_end (run_loop (S fuel) self w)
    ((invoke self m data ;; run_loop fuel self)
       (popped (command_deque self) rest w)).
Proof.
  intros Hq Hne Hd Hfuel.
  rewrite (run_loop_turn _ _ _ _ Hq). rewrite Z.eqb_refl.
  rewrite (bind_popleft _ _ _ c (data ++ END_SYSEX :: rest))
    by apply queued_popped.
  rewrite bind_dispatch_get.
  change (command_dispatch (popped _ _ (popped _ _ w)))
    with (command_dispatch w).
  rewrite Hd. cbn [entry_method]. rewrite bind_ret, popped_popped.
  eapply same_end_trans; [apply same_end_after |].
  eapply same_end_trans; [apply same_end_after |].
  eapply same_end_trans.
  - apply same_end_bind.
    apply (sysex_loop_end self m rest data fuel [] _);
      [apply queued_popped | exact Hne | exact Hfuel].
  - rewrite popped_popped. apply same_end_refl.
Qed.

Lemma sysex_message_dispatch_witness :
  same_end
    (run_loop 7 uno_handler
       (started (feed 0 [0xF0; 0x21; 3; 1; 0x7f; 0xF7] uno)))
    ((invoke uno_handler m_encoder_data [3; 1; 0x7f] ;;
      run_loop 6 uno_handler)
       (popped 0 [] (started (feed 0 [0xF0; 0x21; 3; 1; 0x7f; 0xF7] uno)))).
Proof.
  refine (sysex_message_dispatch uno_handler
            (started (feed 0 [0xF0; 0x21; 3; 1; 0x7f; 0xF7] uno))
            6 0x21 m_encoder_data 3 [3; 1; 0x7f] [] _ _ _ _).
  - reflexivity.
  - repeat constructor; unfold END_SYSEX; lia.
  - reflexivity.
  - cbn. lia.
Defined.

Lemma sysex_loop_starved self m (data : list Z) : forall fuel acc w,
  Forall (fun d => d <> END_SYSEX) data ->
  (length data < fuel)%nat ->
  same_end
    (sysex_loop fuel self m acc (popped (command_deque self) data w))
    (stop Block (popped (command_deque self) [] w)).
Proof.
  induction data as [| d data IH]; intros fuel acc w Hne Hfuel.
  - destruct fuel as [| fuel]; [lia |]. cbn [sysex_loop].
    unfold popleft. rewrite bind_bind, bind_ask, queued_popped.
    split; reflexivity.
  - destruct fuel as [| fuel]; [cbn in Hfuel; lia |]. cbn [sysex_loop].
    rewrite (bind_popleft _ _ _ d data) by apply queued_popped.
    inversion Hne as [| ? ? Hd Hne']. subst.
    rewrite (proj2 (Z.eqb_neq d END_SYSEX)) by exact Hd.
    rewrite popped_popped.
    eapply same_end_trans; [apply same_end_after |].
    apply IH; [exact Hne' | cbn in Hfuel; lia].
Qed.

(** X12. On a message cut short the receive loop takes what there is off
    the deque and then waits for more without end, the handler never
    called and nothing else changed: so for a sysex message without its
    END_SYSEX, and so for a command of two data bytes followed by fewer
    than two. *)
Theorem truncated_message_waits self w fuel :
  (forall c m n data,
     queued (command_deque self) w = START_SYSEX :: c :: data ->
     Forall (fun d => d <> END_SYSEX) data ->
     command_dispatch w !! c = Some (m, n) ->
     (length data < fuel)%nat ->
     same_end (run_loop (S fuel) self w)
       (mkRun [] (popped (command_deque self) [] w) (inl Block))) /\
  (forall b key pre m args,
     queued (command_deque self) w = b :: args ->
     (length args < 2)%nat ->
     0x80 <= b <= 0xff ->
     b <> START_SYSEX ->
     command_key b = (key, pre) ->
     command_dispatch w !! key = Some (m, 2) ->
     same_end (run_loop (S fuel) self w)
       (mkRun [] (popped (command_deque self) [] w) (inl Block))).
Proof.
  split.
  - intros c m n data Hq Hne Hd Hfuel.
    rewrite (run_loop_turn _ _ _ _ Hq). rewrite Z.eqb_refl.
    rewrite (bind_popleft _ _ _ c data) by apply queued_popped.
    rewrite bind_dispatch_get.
    change (command_dispatch (popped _ _ (popped _ _ w)))
      with (command_dispatch w).
    rewrite Hd. cbn [entry_method]. rewrite bind_ret, popped_popped.
    eapply same_end_trans; [apply same_end_after |].
    eapply same_end_trans; [apply same_end_after |].
    eapply same_end_trans.
    + apply (same_end_bind _ (stop Block)).
      apply (sysex_loop_starved self m data fuel [] w Hne Hfuel).
    + split; reflexivity.
  - intros b key pre m args Hq Hlen Hb Hns Hkey Hd.
    rewrite (run_loop_turn _ _ _ _ Hq).
    rewrite (proj2 (Z.eqb_neq b START_SYSEX)) by exact Hns.
    rewrite (command_byte_test b Hb), Hkey.
    rewrite bind_dispatch_get.
    change (command_dispatch (popped _ _ w)) with (command_dispatch w).
    rewrite Hd. cbn [entry_method entry_num_args]. rewrite !bind_ret.
    change (length (range 0 2)) with 2%nat. cbn [take_args].
    eapply same_end_trans; [apply same_end_after |].
    destruct args as [| b1 [| b2 args]]; [| | cbn in Hlen; lia].
    + unfold popleft. rewrite !bind_bind, bind_ask, queued_popped.
      split; reflexivity.
    + rewrite bind_bind.
      rewrite (bind_popleft _ _ _ b1 []) by apply queued_popped.
      rewrite popped_popped.
      eapply same_end_trans; [apply same_end_after |].
      unfold popleft. rewrite !bind_bind, bind_ask, queued_popped.
      split; reflexivity.
Qed.

Lemma truncated_message_waits_witness :
  same_end
    (run_loop 5 uno_handler (started (feed 0 [0xF0; 0x79; 2; 3] uno)))
    (mkRun [] (popped 0 [] (started (feed 0 [0xF0; 0x79; 2; 3] uno)))
       (inl Block)).
Proof.
  refine (proj1 (truncated_message_waits uno_handler
                   (started (feed 0 [0xF0; 0x79; 2; 3] uno)) 4)
            0x79 m_report_firmware 1 [2; 3] _ _ _ _).
  - reflexivity.
  - repeat constructor; unfold END_SYSEX; lia.
  - reflexivity.
  - cbn. lia.
Defined.

(** X13. A byte that is no command (below 0x80 or above 0xFF) met
    between messages is dropped: the turn takes it off the deque and the
    loop comes round on the next byte with nothing else changed. *)
Theorem stray_byte_is_dropped self w fuel b rest :
  queued (command_deque self) w = b :: rest ->
  b < 0x80 \/ 0xff < b ->
  same_end (run_loop (S fuel) self w)
    (run_loop fuel self (popped (command_deque self) rest w)).
Proof.
  intros Hq Hb. rewrite (run_loop_turn _ _ _ _ Hq).
  rewrite (proj2 (Z.eqb_neq b START_SYSEX)) by (unfold START_SYSEX; lia).
  assert (Hcmd : (0x80 <=? b) && (b <=? 0xff) = false).
  { destruct (Z.leb_spec 0x80 b), (Z.leb_spec b 0xff); cbn; lia || auto. }
  rewrite Hcmd. apply same_end_after.
Qed.

Lemma stray_byte_is_dropped_witness :
  same_end (run_loop 3 uno_handler (feed 0 [0x05; 0x06] uno))
    (run_loop 2 uno_handler (popped 0 [0x06] (feed 0 [0x05; 0x06] uno))).
Proof.
  refine (stray_byte_is_dropped uno_handler (feed 0 [0x05; 0x06] uno) 2
            0x05 [0x06] _ _).
  - reflexivity.
  - left. lia.
Defined.

(** X14. Only the command bytes 0xE0 to 0xE9 are taken for analog
    messages.  A byte from 0xEA to 0xEF, the analog message of pins 10 to
    15, is looked up as it is, and unless the dispatch dict already held
    such a key before [run] filled it, the receive loop ends on it with
    [TypeError], its data bytes left on the deque. *)
Theorem analog_pins_above_nine_end_run self w b rest :
  0xea <= b <= 0xef ->
  queued (command_deque self) w = b :: rest ->
  command_dispatch w !! b = None ->
  outcome (run self w) = inl (Raise TypeError) /\
  final (run self w) = popped (command_deque self) rest (started w).
Proof.
  intros Hb Hq Hd.
  destruct (run_start self w) as [Ho Hf]. rewrite Ho, Hf.
  assert (Hq' : queued (command_deque self) (started w) = b :: rest)
    by exact Hq.
  rewrite (run_loop_turn _ _ _ _ Hq').
  rewrite (proj2 (Z.eqb_neq b START_SYSEX)) by (unfold START_SYSEX; lia).
  rewrite (command_byte_test b) by lia.
  rewrite (command_key_other b) by lia.
  rewrite bind_dispatch_get.
  change (command_dispatch (popped _ _ (started w)))
    with (dispatch_table (command_dispatch w)).
  rewrite dispatch_table_other, Hd
    by (unfold REPORT_VERSION, REPORT_FIRMWARE, ANALOG_MESSAGE,
          DIGITAL_MESSAGE, ENCODER_DATA, STRING_DATA; lia).
  split; reflexivity.
Qed.

Lemma analog_pins_above_nine_end_run_witness :
  outcome (run uno_handler (feed 0 [0xea; 0x7f; 0x03] uno))
  = inl (Raise TypeError).
Proof.
  refine (proj1 (analog_pins_above_nine_end_run uno_handler
                   (feed 0 [0xea; 0x7f; 0x03] uno) 0xea [0x7f; 0x03]
                   _ _ _)).
  - lia.
  - reflexivity.
  - reflexivity.
Defined.

(** ** What the receive loop leaves alone *)

Section Keeps.
Context {X : Type} (f : World -> X).
Hypothesis f_held : forall h w, f (set_held h w) = f w.
Hypothesis f_deques : forall q w, f (set_deques q w) = f w.
Hypothesis f_version : forall v w, f (set_version v w) = f w.
Hypothesis f_firmware : forall v w, f (set_firmware v w) = f w.
Hypothesis f_console : forall c w, f (set_console c w) = f w.
Hypothesis f_stored : forall r n v w, f (stored r n v w) = f w.

Lemma keeps_ret {A} (a : A) : keeps f (ret a).
Proof. intros w. reflexivity. Qed.

Lemma keeps_stop {A} (e : abort) : keeps f (@stop A e).
Proof. intros w. reflexivity. Qed.

Lemma keeps_ask : keeps f ask.
Proof. intros w. reflexivity. Qed.

Lemma keeps_act g : (forall w, f (g w) = f w) -> keeps f (act g).
Proof. intros Hg w. apply Hg. Qed.

Lemma keeps_bind {A B} (m : M A) (k : A -> M B) :
  keeps f m -> (forall a, keeps f (k a)) -> keeps f (bind m k).
Proof.
  intros Hm Hk w. unfold bind.
  destruct (outcome (m w)) as [e | a]; cbn; [apply Hm |].
  rewrite (Hk a). apply Hm.
Qed.

Lemma keeps_item {A} (l : list A) i : keeps f (item l i).
Proof.
  unfold item. destruct (getitem l i); [apply keeps_ret | apply keeps_stop].
Qed.

Lemma keeps_chr_each l : keeps f (chr_each l).
Proof.
  induction l as [| i l IH]; [apply keeps_ret |]. cbn [chr_each].
  apply keeps_bind.
  - unfold chr_. destruct (chr i); [apply keeps_stop | apply keeps_ret].
  - intros c. apply keeps_bind; [exact IH |]. intros cs. apply keeps_ret.
Qed.

Lemma keeps_acquire l : keeps f (acquire l).
Proof.
  unfold acquire. apply keeps_bind; [apply keeps_ask |]. intros w.
  destruct (bool_decide (l ∈ held w)); [apply keeps_stop |].
  apply keeps_act. intros w'. apply f_held.
Qed.

Lemma keeps_release l : keeps f (release l).
Proof. apply keeps_act. intros w. apply f_held. Qed.

Lemma keeps_store_value r i v : keeps f (store_value r i v).
Proof.
  unfold store_value. apply keeps_bind; [apply keeps_ask |]. intros w.
  destruct (index_of (length (deref w r)) i) as [n |];
    [| apply keeps_stop].
  apply keeps_act. intros w'. apply (f_stored r n v w').
Qed.

Lemma keeps_digital_message_loop self pins : forall pd,
  keeps f (digital_message_loop self pins pd).
Proof.
  induction pins as [| pin pins IH]; intros pd; [apply keeps_ret |].
  cbn [digital_message_loop].
  apply keeps_bind; [apply keeps_acquire | intros _].
  apply keeps_bind; [apply keeps_store_value | intros _].
  apply keeps_bind; [apply keeps_release | intros _]. apply IH.
Qed.

Lemma keeps_popleft q : keeps f (popleft q).
Proof.
  unfold popleft. apply keeps_bind; [apply keeps_ask |]. intros w.
  destruct (queued q w); [apply keeps_stop |].
  apply keeps_bind; [| intros _; apply keeps_ret].
  apply keeps_act. intros w'. apply f_deques.
Qed.

Ltac keeps_step :=
  cbv zeta;
  first [ apply keeps_ret | apply keeps_ask | apply keeps_item
        | apply keeps_chr_each | apply keeps_acquire
        | apply keeps_release | apply keeps_store_value
        | apply keeps_digital_message_loop
        | apply keeps_bind; [| intros ?]
        | apply keeps_act; intros ?;
          first [ apply f_version | apply f_firmware | apply f_console ] ].

Lemma keeps_invoke self m data : keeps f (invoke self m data).
Proof.
  destruct m; cbn [invoke];
    [ unfold report_version | unfold report_firmware
    | unfold analog_message | unfold digital_message
    | unfold encoder_data | unfold _string_data ];
    repeat keeps_step.
Qed.

Lemma keeps_sysex_loop self m fuel : forall command_data,
  keeps f (sysex_loop fuel self m command_data).
Proof.
  induction fuel as [| fuel IH]; intros command_data;
    [apply keeps_stop |].
  cbn [sysex_loop]. apply keeps_bind; [apply keeps_popleft |].
  intros data. destruct (data =? END_SYSEX);
    [apply keeps_invoke | apply IH].
Qed.

Lemma keeps_take_args self n : forall command_data,
  keeps f (take_args n self command_data).
Proof.
  induction n as [| n IH]; intros command_data; [apply keeps_ret |].
  cbn [take_args]. apply keeps_bind; [apply keeps_popleft |].
  intros data. apply IH.
Qed.

Lemma keeps_dispatch_get key : keeps f (dispatch_get key).
Proof.
  unfold dispatch_get. apply keeps_bind; [apply keeps_ask |].
  intros w. apply keeps_ret.
Qed.

Lemma keeps_entry_method e : keeps f (entry_method e).
Proof. destruct e as [[m n] |]; [apply keeps_ret | apply keeps_stop]. Qed.

Lemma keeps_entry_num_args e : keeps f (entry_num_args e).
Proof. destruct e as [[m n] |]; [apply keeps_ret | apply keeps_stop]. Qed.

Lemma keeps_run_loop self fuel : keeps f (run_loop fuel self).
Proof.
  induction fuel as [| fuel IH]; [apply keeps_stop |].
  cbn [run_loop]. apply keeps_bind; [apply keeps_ask |]. intros w.
  destruct (bool_decide (queued (command_deque self) w = []));
    [apply keeps_stop |].
  apply keeps_bind; [apply keeps_popleft |]. intros data.
  destruct (data =? START_SYSEX).
  - apply keeps_bind; [apply keeps_popleft |]. intros c.
    apply keeps_bind; [apply keeps_dispatch_get |]. intros e.
    apply keeps_bind; [apply keeps_entry_method |]. intros m.
    apply keeps_bind; [apply keeps_sysex_loop |]. intros _. exact IH.
  - destruct ((0x80 <=? data) && (data <=? 0xff)); [| exact IH].
    destruct (command_key data) as [key command_data].
    apply keeps_bind; [apply keeps_dispatch_get |]. intros e.
    apply keeps_bind; [apply keeps_entry_method |]. intros m.
    apply keeps_bind; [apply keeps_entry_num_args |]. intros n.
    apply keeps_bind; [apply keeps_take_args |]. intros cd.
    apply keeps_bind; [apply keeps_invoke |]. intros _. exact IH.
Qed.

Hypothesis f_dispatch : forall d w, f (set_dispatch d w) = f w.

Lemma keeps_run self : keeps f (run self).
Proof.
  unfold run, dispatch_update.
  repeat (apply keeps_bind;
          [apply keeps_act; intros ?; apply f_dispatch | intros _]).
  apply keeps_bind; [apply keeps_ask |]. intros w. apply keeps_run_loop.
Qed.
End Keeps.

(** X15. Receiving never touches what only the sending side sets: however
    long [run] goes on and however it ends, the mode of every pin in both
    tables, the lengths of the tables and what has been written to the
    transports are what they were when it started; and once its loop is
    entered the dispatch table is never changed again. *)
Theorem receiving_keeps_modes_lengths_and_output self w :
  map mode (digital_response_table (final (run self w)))
    = map mode (digital_response_table w) /\
  map mode (analog_response_table (final (run self w)))
    = map mode (analog_response_table w) /\
  length (digital_response_table (final (run self w)))
    = length (digital_response_table w) /\
  length (analog_response_table (final (run self w)))
    = length (analog_response_table w) /\
  wire (final (run self w)) = wire w /\
  (forall fuel,
     command_dispatch (final (run_loop fuel self w)) = command_dispatch w).
Proof.
  repeat split.
  - apply (keeps_run (fun w => map mode (digital_response_table w)));
      try reflexivity.
    intros r n v w'. destruct r; cbn; [apply map_mode_alter | reflexivity].
  - apply (keeps_run (fun w => map mode (analog_response_table w)));
      try reflexivity.
    intros r n v w'. destruct r; cbn; [reflexivity | apply map_mode_alter].
  - apply (keeps_run (fun w => length (digital_response_table w)));
      try reflexivity.
    intros r n v w'. destruct r; cbn; [apply length_alter | reflexivity].
  - apply (keeps_run (fun w => length (analog_response_table w)));
      try reflexivity.
    intros r n v w'. destruct r; cbn; [reflexivity | apply length_alter].
  - apply (keeps_run wire); try reflexivity.
    intros r n v w'. destruct r; reflexivity.
  - intros fuel. apply (keeps_run_loop command_dispatch); try reflexivity.
    intros r n v w'. destruct r; reflexivity.
Qed.

(** ** The loop has no way out *)

Lemma never_returns_stop {A} (e : abort) : never_returns (@stop A e).
Proof. intros w a. discriminate. Qed.

Lemma never_returns_bind {A B} (m : M A) (k : A -> M B) :
  (forall a, never_returns (k a)) -> never_returns (bind m k).
Proof.
  intros Hk w b. unfold bind.
  destruct (outcome (m w)) as [e | a]; cbn; [discriminate | apply Hk].
Qed.

Lemma never_returns_run_loop self fuel : never_returns (run_loop fuel self).
Proof.
  induction fuel as [| fuel IH]; [apply never_returns_stop |].
  cbn [run_loop]. apply never_returns_bind. intros w.
  destruct (bool_decide (queued (command_deque self) w = []));
    [apply never_returns_stop |].
  apply never_returns_bind. intros data.
  destruct (data =? START_SYSEX).
  - repeat (apply never_returns_bind; intros ?). exact IH.
  - destruct ((0x80 <=? data) && (data <=? 0xff)); [| exact IH].
    destruct (command_key data) as [key command_data].
    repeat (apply never_returns_bind; intros ?). exact IH.
Qed.

(** X16. The receive loop has no exit: whatever is queued, [run] never
    returns.  It ends either waiting for bytes that do not come or with an
    exception that nothing in the class catches. *)
Theorem run_waits_or_raises self w :
  outcome (run self w) = inl Block \/
  exists e, outcome (run self w) = inl (Raise e).
Proof.
  pose proof (run_never_out_of_fuel self w) as Hfuel.
  destruct (run_start self w) as [Ho _].
  pose proof (never_returns_run_loop self
                (S (length (queued (command_deque self) w))) (started w))
    as Hnr.
  rewrite <- Ho in Hnr.
  destruct (outcome (run self w)) as [[e | |] | []].
  - right. exists e. reflexivity.
  - left. reflexivity.
  - contradiction.
  - exfalso. apply (Hnr tt). reflexivity.
Qed.

(** ** A port that sticks out of the table *)

Lemma digital_message_loop_raises self (n : nat) : forall start pd w,
  data_lock self ∉ held w ->
  0 <= start ->
  (1 <= n)%nat ->
  Z.of_nat (length (digital_response_table w)) < start + Z.of_nat n ->
  let r := digital_message_loop self (seqZ start (Z.of_nat n)) pd w in
  outcome r = inl (Raise IndexError) /\ data_lock self ∈ held (final r).
Proof.
  induction n as [| n IH]; intros start pd w Hfree Hstart Hn Hlen r; [lia |].
  subst r. rewrite seqZ_S.
  destruct (Z.lt_ge_cases start
              (Z.of_nat (length (digital_response_table w)))) as [Hin | Hout].
  - rewrite digital_message_loop_step by (done || lia).
    cbn [after final outcome].
    apply IH.
    + apply held_stored_free. done.
    + lia.
    + lia.
    + rewrite digital_stored_digital, length_alter. lia.
  - rewrite digital_message_loop_out by (done || lia).
    cbn [final outcome]. split; [reflexivity |].
    cbn. apply elem_of_union_r, elem_of_singleton. reflexivity.
Qed.

(** X17. [digital_message] runs over all eight pins of its port without
    looking at the length of the table: for a port whose last pin is
    beyond the table it raises [IndexError], and it does so holding the
    lock, which is then never given back. *)
Theorem digital_message_port_beyond_table self w p lsb msb :
  data_lock self ∉ held w ->
  0 <= p ->
  Z.of_nat (length (digital_response_table w)) < p * 8 + 8 ->
  let r := digital_message self [p; lsb; msb] w in
  outcome r = inl (Raise IndexError) /\
  data_lock self ∈ held (final r) /\
  outcome (get_digital_response_table self (final r)) = inl Block.
Proof.
  intros Hfree Hp Hlen r. subst r. rewrite digital_message_unfold.
  destruct (digital_message_loop_raises self 8 (p * 8)
              (Z.shiftl msb 7 + lsb) w Hfree) as [Ho Hh]; [lia | lia | lia |].
  split; [exact Ho |]. split; [exact Hh |].
  unfold get_digital_response_table.
  rewrite acquire_held by exact Hh. reflexivity.
Qed.

Lemma digital_message_port_beyond_table_witness :
  outcome (digital_message uno_handler [2; 0x0f; 0] uno)
  = inl (Raise IndexError).
Proof.
  refine (proj1 (digital_message_port_beyond_table uno_handler uno 2 0x0f 0
                   _ _ _)).
  - vm_compute. discriminate.
  - lia.
  - vm_compute. reflexivity.
Defined.
